(** * Kurtosis data server (MonitorControl/BackEnds/data_server.py)

    A shallow embedding of the packet decoder, the unpacker workers, the
    packet reader, the averager, the main recording loop and the shutdown
    procedure of [data_server.py], with the properties stated about them. *)

From Stdlib Require Import List ZArith QArith Qround Qabs Lia Bool Arith Strings.Byte.
Import ListNotations.
Open Scope Z_scope.

(* ------------------------------------------------------------------ *)
(** ** Module constants (lines 63-67) *)

(** [pkt_size = 1026*64/8]: 1026 frames of 64 bits. *)
Definition pkt_size : nat := (1026 * 64 / 8)%nat.
(** [num_workers = 16], [num_aggregators = 4], [max_count = 5000]. *)
Definition num_workers : nat := 16.
Definition num_aggregators : nat := 4.
Definition max_count : nat := 5000.

(* ------------------------------------------------------------------ *)
(** ** numpy helpers used by [unscramble] *)

(** [numpy.array(data).reshape((rows, cols))]: row-major reshape, which
    raises [ValueError] unless the sizes agree. A matrix is its list of rows. *)
Fixpoint chunk (rows cols : nat) (l : list Z) : list (list Z) :=
  match rows with
  | O => []
  | S r => firstn cols l :: chunk r cols (skipn cols l)
  end.

Definition reshape (l : list Z) (rows cols : nat) : option (list (list Z)) :=
  if Nat.eqb (length l) (rows * cols) then Some (chunk rows cols l) else None.

(** [M[:, c]] for a matrix given by its rows. *)
Definition column (c : nat) (M : list (list Z)) : list Z :=
  map (fun row => nth c row 0) M.

(** [a.astype(numpy.float32) / 4096.]: the values are 16-bit integers, which
    a float32 holds exactly, and the division is by a power of two, so the
    quotient is exact; it is written here in rationals. *)
Definition scale_4096 (a : list Z) : list Q :=
  map (fun x => inject_Z x / inject_Z 4096)%Q a.

(** The two dictionaries returned by [unscramble]. *)
Record Decoded := mkDecoded {
  power_I : list Z;
  power_Q : list Z;
  kurt_I : list Q;
  kurt_Q : list Q
}.

(** [unscramble(data)], lines 107-118. *)
Definition unscramble (data : list Z) : option Decoded :=
  match reshape data 1024 4 with
  | None => None
  | Some D =>
      let top := firstn 512 D in
      let bot := skipn 512 D in
      Some (mkDecoded
              (column 0 top ++ column 1 top)
              (column 0 bot ++ column 1 bot)
              (scale_4096 (column 2 top ++ column 3 top))
              (scale_4096 (column 2 bot ++ column 3 bot)))
  end.

(** The decoded sample set as the data model describes it: [D[r,c]] is
    word [4r+c] of the payload, and the four arrays are the column slices
    [D[lo:lo+512, c]] concatenated. *)
Definition spec_D (data : list Z) (r c : nat) : Z := nth (4 * r + c) data 0.

Definition spec_slice (data : list Z) (lo : nat) (c : nat) : list Z :=
  map (fun r => spec_D data r c) (seq lo 512).

Definition spec_decode (data : list Z) : Decoded :=
  mkDecoded
    (spec_slice data 0 0 ++ spec_slice data 0 1)
    (spec_slice data 512 0 ++ spec_slice data 512 1)
    (scale_4096 (spec_slice data 0 2 ++ spec_slice data 0 3))
    (scale_4096 (spec_slice data 512 2 ++ spec_slice data 512 3)).

(* ------------------------------------------------------------------ *)
(** ** [struct.unpack_from(pkt_fmt, buf)] with [pkt_fmt = "!8cHHI" + 4096*"H"] *)

(** Big-endian unsigned fields. *)
Definition byte_Z (x : Byte.byte) : Z := Z.of_N (Byte.to_N x).

Definition be_uint (l : list Byte.byte) : Z :=
  fold_left (fun acc x => acc * 256 + byte_Z x) l 0.

Fixpoint be16s (n : nat) (l : list Byte.byte) : list Z :=
  match n with
  | O => []
  | S n' => be_uint (firstn 2 l) :: be16s n' (skipn 2 l)
  end.

(** The tuple returned by [unpack_from]: 8 chars, two unsigned shorts, one
    unsigned int and 4096 unsigned shorts. *)
Record Unpacked := mkUnpacked {
  u_hdr : list Byte.byte;
  u_pkt_cnt_sec : Z;
  u_sec_cnt : Z;
  u_raw_pkt_cnt : Z;
  u_data : list Z
}.

(** [unpack_from] raises [struct.error] when the buffer is shorter than the
    format, 8 + 2 + 2 + 4 + 4096*2 = 8208 bytes; extra bytes are ignored. *)
Definition unpack_from (buf : list Byte.byte) : option Unpacked :=
  if Nat.ltb (length buf) pkt_size then None
  else Some (mkUnpacked
               (firstn 8 buf)
               (be_uint (firstn 2 (skipn 8 buf)))
               (be_uint (firstn 2 (skipn 10 buf)))
               (be_uint (firstn 4 (skipn 12 buf)))
               (be16s 4096 (skipn 16 buf))).

(* ------------------------------------------------------------------ *)
(** ** Unpacker worker [unscramble_packet] (lines 120-147) *)

(** The [one_second] dictionary a worker builds and puts on its output
    queue. [ep_time] is [None] while the key ['time'] is absent. *)
Record Epoch := mkEpoch {
  ep_time : option Q;
  ep_hdr : list (list Byte.byte);
  ep_pkt_cnt_sec : list Z;
  ep_sec_cnt : list Z;
  ep_raw_pkt_cnt : list Z;
  ep_pwr_I : list (list Z);
  ep_krt_I : list (list Q);
  ep_pwr_Q : list (list Z);
  ep_krt_Q : list (list Q)
}.

Definition empty_epoch : Epoch := mkEpoch None [] [] [] [] [] [] [] [].

Definition set_time (t : Q) (e : Epoch) : Epoch :=
  mkEpoch (Some t) (ep_hdr e) (ep_pkt_cnt_sec e) (ep_sec_cnt e)
    (ep_raw_pkt_cnt e) (ep_pwr_I e) (ep_krt_I e) (ep_pwr_Q e) (ep_krt_Q e).

(** The eight [append] calls of lines 136-145 for one packet. *)
Definition add_packet (e : Epoch) (r : Unpacked) (d : Decoded) : Epoch :=
  mkEpoch (ep_time e)
    (ep_hdr e ++ [u_hdr r])
    (ep_pkt_cnt_sec e ++ [u_pkt_cnt_sec r])
    (ep_sec_cnt e ++ [u_sec_cnt r])
    (ep_raw_pkt_cnt e ++ [u_raw_pkt_cnt r])
    (ep_pwr_I e ++ [power_I d])
    (ep_krt_I e ++ [kurt_I d])
    (ep_pwr_Q e ++ [power_Q d])
    (ep_krt_Q e ++ [kurt_Q d]).

(** What one run of the inner [while count] loop ends in: the epoch is put
    on the output queue with the rest of the input, the worker blocks in
    [input_queue.get()] for lack of input, or an exception kills it. *)
Inductive Fill :=
| Emit (e : Epoch) (rest : list (Q * list Byte.byte))
| Blocked
| Crashed.

Section Worker.
(** The batch size [max_count]. *)
Variable b : nat.

(** The inner loop; each input item is a packet buffer together with the
    value [time.time()] returns right after it is dequeued. *)
Fixpoint fill (count : nat) (e : Epoch) (input : list (Q * list Byte.byte))
  : Fill :=
  match count with
  | O => Emit e input
  | S c =>
      match input with
      | [] => Blocked
      | (t, buf) :: rest =>
          let e := if Nat.eqb count b then set_time t e else e in
          match unpack_from buf with
          | None => Crashed
          | Some r =>
              match unscramble (u_data r) with
              | None => Crashed
              | Some d => fill c (add_packet e r d) rest
              end
          end
      end
  end.

(** The outer [while True] loop, run for [fuel] rounds: the epochs put on
    the output queue, in order. *)
Fixpoint unscramble_packet (fuel : nat) (input : list (Q * list Byte.byte))
  : list Epoch :=
  match fuel with
  | O => []
  | S f =>
      match fill b empty_epoch input with
      | Emit e rest => e :: unscramble_packet f rest
      | Blocked | Crashed => []
      end
  end.
End Worker.

(** The epoch built from a batch of decoded packets, as the data model
    describes it. *)
Definition epoch_of (t : option Q) (ps : list (Unpacked * Decoded)) : Epoch :=
  mkEpoch t
    (map (fun p => u_hdr (fst p)) ps)
    (map (fun p => u_pkt_cnt_sec (fst p)) ps)
    (map (fun p => u_sec_cnt (fst p)) ps)
    (map (fun p => u_raw_pkt_cnt (fst p)) ps)
    (map (fun p => power_I (snd p)) ps)
    (map (fun p => kurt_I (snd p)) ps)
    (map (fun p => power_Q (snd p)) ps)
    (map (fun p => kurt_Q (snd p)) ps).

(** A packet buffer decodes to [p]. *)
Definition decodes_to (buf : list Byte.byte) (p : Unpacked * Decoded) : Prop :=
  unpack_from buf = Some (fst p) /\ unscramble (u_data (fst p)) = Some (snd p).

(** Every per-packet list of an epoch has [n] entries. *)
Definition epoch_rows (n : nat) (e : Epoch) : Prop :=
  length (ep_hdr e) = n /\ length (ep_pkt_cnt_sec e) = n /\
  length (ep_sec_cnt e) = n /\ length (ep_raw_pkt_cnt e) = n /\
  length (ep_pwr_I e) = n /\ length (ep_krt_I e) = n /\
  length (ep_pwr_Q e) = n /\ length (ep_krt_Q e) = n.

(* ------------------------------------------------------------------ *)
(** ** Packet reader [get_packet] (lines 149-157) *)

(** [socket.recvfrom(pkt_size)] on a datagram socket: a datagram longer
    than the buffer is cut to its first [pkt_size] bytes. *)
Definition recvfrom (datagram : list Byte.byte) : list Byte.byte :=
  firstn pkt_size datagram.

Section Reader.
(** [max_count] and [num_workers]. *)
Variables b N : nat.

(** The loop counters after one [put]: [count] runs through [range(b)]
    inside [unpacker] running through [range(N)], inside [while True]. *)
Definition next_slot (w c : nat) : nat * nat :=
  if Nat.ltb (S c) b then (w, S c)
  else if Nat.ltb (S w) N then (S w, 0%nat)
  else (0%nat, 0%nat).

Fixpoint reader_go (w c : nat) (ds : list (list Byte.byte))
  : list (nat * list Byte.byte) :=
  match ds with
  | [] => []
  | d :: ds' =>
      (w, recvfrom d) ::
      (let (w', c') := next_slot w c in reader_go w' c' ds')
  end.

(** The [put]s of the reader, as (queue index, data) pairs, for the
    datagrams received in order. With an empty [range] the loop spins
    without receiving. *)
Definition get_packet (ds : list (list Byte.byte)) : list (nat * list Byte.byte) :=
  if Nat.eqb b 0 || Nat.eqb N 0 then [] else reader_go 0 0 ds.
End Reader.

(* ------------------------------------------------------------------ *)
(** ** Monitor files and the averager (lines 168-257) *)

(** *** IEEE 754 binary floating point, round to nearest, ties to even

    A float is a finite value (a rational that the format represents), an
    infinity or NaN; the sign of zero plays no part here. *)
Inductive float := Fnum (q : Q) | Finf (neg : bool) | Fnan.

(** A binary format: its precision in bits and its largest exponent. *)
Record fmt := mkFmt { f_prec : Z; f_emax : Z }.
Definition binary32 : fmt := mkFmt 24 127.
Definition binary64 : fmt := mkFmt 53 1023.

Definition pow2 (e : Z) : Q := Qpower 2 e.

(** [floor (log2 a)] for [a > 0]. *)
Definition qlog2 (a : Q) : Z :=
  let e := Z.log2 (Qnum a) - Z.log2 (Zpos (Qden a)) in
  if Qle_bool (pow2 e) a then e else e - 1.

(** The integer nearest to [m], ties to the even one. *)
Definition round_half_even (m : Q) : Z :=
  let f := Qfloor m in
  match (m - inject_Z f ?= 1 # 2)%Q with
  | Lt => f
  | Gt => f + 1
  | Eq => if Z.even f then f else f + 1
  end.

(** Rounding a real (here rational) result to the format: the unit in the
    last place is [2^e] with [e = floor (log2 |q|) - p + 1], but not below
    the subnormal unit [2^(2 - emax - p)]; [|q| / 2^e] is rounded to an
    integer [M]. A result [M * 2^e] above the largest finite value
    [(2^p - 1) * 2^(emax - p + 1)] overflows to an infinity. Finite results
    are kept in lowest terms. *)
Definition round (fm : fmt) (q : Q) : float :=
  if Qeq_bool q 0 then Fnum 0 else
  let a := Qabs q in
  let e := Z.max (qlog2 a - f_prec fm + 1) (2 - f_emax fm - f_prec fm) in
  let M := round_half_even (a / pow2 e) in
  if Z.ltb (2 ^ f_prec fm - 1) (M * 2 ^ (e - (f_emax fm - f_prec fm + 1)))
  then Finf (negb (Qle_bool 0 q))
  else Fnum (Qred (if Qle_bool 0 q then inject_Z M * pow2 e else - (inject_Z M * pow2 e)))%Q.

(** Addition in the format. *)
Definition float_add (fm : fmt) (x y : float) : float :=
  match x, y with
  | Fnan, _ | _, Fnan => Fnan
  | Finf s1, Finf s2 => if Bool.eqb s1 s2 then Finf s1 else Fnan
  | Finf s, Fnum _ | Fnum _, Finf s => Finf s
  | Fnum a, Fnum b => round fm (a + b)
  end.

(** Division by a count [n], itself exact in the format. *)
Definition float_div_nat (fm : fmt) (x : float) (n : nat) : float :=
  match x with
  | Fnan => Fnan
  | Finf s => Finf s
  | Fnum a =>
      match n with
      | O => if Qeq_bool a 0 then Fnan else Finf (negb (Qle_bool 0 a))
      | S _ => round fm (a / inject_Z (Z.of_nat n))
      end
  end.

(** Conversion of a float64 to float32 (numpy's [astype], HDF5's conversion
    when a float64 value is written to a float32 dataset). *)
Definition to_float32 (x : float) : float :=
  match x with Fnum q => round binary32 q | _ => x end.

(** The two polarisation channels, ['I'] and ['Q']. *)
Inductive Channel := ChI | ChQ.

Definition ep_pwr (c : Channel) (e : Epoch) : list (list Z) :=
  match c with ChI => ep_pwr_I e | ChQ => ep_pwr_Q e end.
Definition ep_krt (c : Channel) (e : Epoch) : list (list Q) :=
  match c with ChI => ep_krt_I e | ChQ => ep_krt_Q e end.

(** The four datasets of one monitor file, each as its list of rows. *)
Record MonFile := mkMon {
  m_time : list Q;
  m_pkt_cnt : list Z;
  m_power : list (list float);
  m_kurtosis : list (list float)
}.

(** [open_monitor_files]: every dataset is created with one row, holding
    the HDF5 fill value 0. *)
Definition open_monitor_file : MonFile :=
  mkMon [0%Q] [0] [repeat (Fnum 0) 1024] [repeat (Fnum 0) 1024].

(** [dset.resize(n, axis=0)]: rows beyond [n] are dropped, new rows hold the
    fill value. *)
Definition resize {A} (n : nat) (fillv : A) (l : list A) : list A :=
  firstn n l ++ repeat fillv (n - length l).

Definition resize_all (n : nat) (m : MonFile) : MonFile :=
  mkMon (resize n 0%Q (m_time m)) (resize n 0 (m_pkt_cnt m))
        (resize n (repeat (Fnum 0) 1024) (m_power m))
        (resize n (repeat (Fnum 0) 1024) (m_kurtosis m)).

(** [dset[i] = v]: replaces row [i]; an index past the end raises. *)
Definition set_row {A} (i : nat) (v : A) (l : list A) : option (list A) :=
  if Nat.ltb i (length l) then Some (firstn i l ++ v :: skipn (i + 1) l) else None.

(** Storing a Python integer in the [int32] dataset [pkt cnt]: numpy's
    conversion to a 32-bit signed integer, with its wrap-around. *)
Definition to_int32 (x : Z) : Z := (x + 2 ^ 31) mod 2 ^ 32 - 2 ^ 31.

(** *** [numpy.array(rows).mean(axis=0)]

    numpy's [_mean] sums with [umr_sum(arr, axis, dtype)] and divides by the
    count with [true_divide]. The sum is an [add] reduction started from its
    identity 0; over axis 0 of a C-ordered array it adds the rows one after
    the other, each addition rounded to the accumulator's format [acc]. The
    accumulator is float64 for integer arrays and the array's own type for
    float32 arrays. The mean of an empty array is [0/0 = nan], which the
    assignment of a row broadcasts over the 1024 channels. *)
Definition width {A} (rows : list (list A)) : nat :=
  match rows with [] => 0%nat | r :: _ => length r end.

Definition np_mean_axis0 (acc : fmt) (rows : list (list Q)) : list float :=
  match rows with
  | [] => repeat Fnan 1024
  | _ =>
      map (fun j => float_div_nat acc
                      (fold_left (fun s r => float_add acc s (Fnum (nth j r 0%Q)))
                                 rows (Fnum 0))
                      (length rows))
          (seq 0 (width rows))
  end.

(** Line 244: the power rows are [uint16] arrays (line 116), so numpy sums and
    divides in float64 (a uint16 converts to float64 exactly); the float64
    means are rounded to float32 when stored in the float32 [power] dataset. *)
Definition power_row (pw : list (list Z)) : list float :=
  map to_float32 (np_mean_axis0 binary64 (map (map inject_Z) pw)).

(** Line 245: the kurtosis rows are float32 arrays (line 118), so numpy sums
    and divides in float32, and the [kurtosis] dataset stores the result as
    it is. *)
Definition kurtosis_row (kr : list (list Q)) : list float :=
  np_mean_axis0 binary32 kr.

Definition bind_opt {A B} (x : option A) (f : A -> option B) : option B :=
  match x with Some a => f a | None => None end.
Notation "x >>= f" := (bind_opt x f) (at level 58, left associativity).

(** The body of [for IF in ['I', 'Q']] for one channel, lines 236-250. *)
Definition average_channel (counter : nat) (t : Q) (rpc : Z)
           (pw : list (list Z)) (kr : list (list Q)) (m : MonFile)
  : option MonFile :=
  let m := if Nat.eqb counter 0 then m else resize_all (S counter) m in
  set_row counter t (m_time m) >>= fun tl =>
  set_row counter (to_int32 rpc) (m_pkt_cnt m) >>= fun pl =>
  set_row counter (power_row pw) (m_power m) >>= fun wl =>
  set_row counter (kurtosis_row kr) (m_kurtosis m) >>= fun kl =>
  Some (mkMon tl pl wl kl).

(** The averager's state: [counter] and the two monitor files. *)
Record AvgState := mkAvg {
  a_counter : nat;
  a_file_I : MonFile;
  a_file_Q : MonFile
}.

Definition a_file (c : Channel) (s : AvgState) : MonFile :=
  match c with ChI => a_file_I s | ChQ => a_file_Q s end.

(** One epoch taken off the monitor queue (lines 230-253). The debug lines
    read [one_second['time']] and [one_second['raw pkt cnt'][0]] first; a
    missing key or an empty list raises there. *)
Definition average_step (s : AvgState) (e : Epoch) : option AvgState :=
  match ep_time e, ep_raw_pkt_cnt e with
  | Some t, rpc :: _ =>
      let n := a_counter s in
      average_channel n t rpc (ep_pwr ChI e) (ep_krt ChI e) (a_file_I s) >>= fun fI =>
      average_channel n t rpc (ep_pwr ChQ e) (ep_krt ChQ e) (a_file_Q s) >>= fun fQ =>
      Some (mkAvg (S n) fI fQ)
  | _, _ => None
  end.

Definition avg_init : AvgState := mkAvg 0 open_monitor_file open_monitor_file.

(** The epochs the averager takes off its queue while [working.value] is
    set, in order. *)
Fixpoint average_run (s : AvgState) (es : list Epoch) : option AvgState :=
  match es with
  | [] => Some s
  | e :: es' => average_step s e >>= fun s' => average_run s' es'
  end.

Definition average_one_second (es : list Epoch) : option AvgState :=
  average_run avg_init es.

(* ------------------------------------------------------------------ *)
(** ** UTC wall clock *)

(** [time.gmtime(x)] under Python 2 first converts the float to [time_t]
    by a C cast, which truncates toward zero. *)
Definition time_t_of (t : Q) : Z := Z.quot (Qnum t) (Zpos (Qden t)).

(** [(tm_hour, tm_min, tm_sec)] of [time.gmtime(t)]. *)
Definition gmtime_hms (t : Q) : Z * Z * Z :=
  let d := time_t_of t mod 86400 in (d / 3600, d mod 3600 / 60, d mod 60).

Definition hms_eqb (x y : Z * Z * Z) : bool :=
  let '(h1, m1, s1) := x in let '(h2, m2, s2) := y in
  Z.eqb h1 h2 && Z.eqb m1 m2 && Z.eqb s1 s2.

(** [(self.endhr, self.endmin, self.endsec)] set in [__init__] (lines
    319-327): from the [endtime] argument, or from [now = time.gmtime(...)]. *)
Definition end_target (endtime : option (Z * Z)) (now : Q) : Z * Z * Z :=
  match endtime with
  | Some (hr, mn) => (hr, mn, 0)
  | None => let '(h, _, _) := gmtime_hms now in (h + 1, 0, 0)
  end.

(* ------------------------------------------------------------------ *)
(** ** Main loop [KurtosisDataServer.run] (lines 494-527) *)

(** What the loop has done so far: the epochs put on [monitor_queue], the
    groups created in the raw store (number and content), and [grpnum]. *)
Record RunState := mkRun {
  r_monitor : list Epoch;
  r_groups : list (nat * Epoch);
  r_grpnum : nat
}.

Definition run_init : RunState := mkRun [] [] 0.

(** How the loop ends on a finite queue content: the stop test matched
    ([break]), the queue is empty and [get] blocks, or an exception
    (a missing ['time'] key) escapes. *)
Inductive RunEnd :=
| Stopped (st : RunState)
| Waiting (st : RunState)
| RunCrashed (st : RunState).

Fixpoint run_loop (target : Z * Z * Z) (es : list Epoch) (st : RunState) : RunEnd :=
  match es with
  | [] => Waiting st
  | e :: es' =>
      match ep_time e with
      | None => RunCrashed st
      | Some t =>
          if hms_eqb (gmtime_hms t) target then Stopped st
          else run_loop target es'
                 (mkRun (r_monitor st ++ [e])
                        (r_groups st ++ [(r_grpnum st, e)])
                        (S (r_grpnum st)))
      end
  end.

Definition run (target : Z * Z * Z) (es : list Epoch) : RunEnd :=
  run_loop target es run_init.

(* ------------------------------------------------------------------ *)
(** ** Sniffing the signal codes at startup (lines 279-291) *)

(** The outcome of the first [recvfrom] with a 2 s timeout: [sys.exit] with
    a status, an exception escaping [__init__], or the two signal codes. *)
Inductive Startup :=
| StartExit (status : Z)
| StartCrash
| StartSignals (sig_I sig_Q : list Byte.byte).

(** [arrival] is the datagram received within the timeout, if any. *)
Definition sniff_signal (arrival : option (list Byte.byte)) : Startup :=
  match arrival with
  | None => StartExit 1
  | Some d =>
      match unpack_from (recvfrom d) with
      | None => StartCrash
      | Some r => StartSignals (firstn 4 (u_hdr r)) (skipn 4 (u_hdr r))
      end
  end.

(* ------------------------------------------------------------------ *)
(** ** Shutdown: lines 525-527 of [run] and [_terminate] (lines 439-492) *)

(** The steps of the shutdown; [CloseRawStore] would be [self.file.close()]. *)
Inductive Act :=
| TermReader
| TermUnpacker (i : nat)
| TermAggregator (i : nat)
| ClearFlag
| Sleep1
| TermAverager
| CloseSocket
| CloseRawStore.

Inductive Exn := AttributeError | ValueError | OtherError.

Inductive Ev :=
| Did (a : Act)
| Failed (a : Act) (x : Exn)
| Logged (a : Act).

Section Shutdown.
(** Which steps raise, and what. *)
Variable fails : Act -> option Exn.

(** A [try] block running [acts] in order, whose [except] clauses catch the
    exceptions [caught] selects: the events, and the exception escaping. *)
Fixpoint try_block (acts : list Act) (caught : Exn -> bool)
  : list Ev * option Exn :=
  match acts with
  | [] => ([], None)
  | a :: acts' =>
      match fails a with
      | None => let '(evs, r) := try_block acts' caught in (Did a :: evs, r)
      | Some x =>
          if caught x then ([Failed a x; Logged a], None) else ([Failed a x], Some x)
      end
  end.

(** Statements in sequence: an escaping exception skips the rest. *)
Fixpoint seq_blocks (bs : list (list Ev * option Exn)) : list Ev * option Exn :=
  match bs with
  | [] => ([], None)
  | (evs, Some x) :: _ => (evs, Some x)
  | (evs, None) :: bs' => let '(evs', r) := seq_blocks bs' in (evs ++ evs', r)
  end.

Definition catch_attr (x : Exn) : bool :=
  match x with AttributeError => true | _ => false end.
Definition catch_val_attr (x : Exn) : bool :=
  match x with AttributeError | ValueError => true | _ => false end.
Definition catch_all (x : Exn) : bool := true.
Definition catch_none (x : Exn) : bool := false.

Definition terminate : list Ev * option Exn :=
  seq_blocks
    ([try_block [TermReader] catch_attr]
     ++ map (fun i => try_block [TermUnpacker i] catch_attr) (seq 0 num_workers)
     ++ map (fun i => try_block [TermAggregator i] catch_attr) (seq 0 num_aggregators)
     ++ [try_block [ClearFlag; Sleep1; TermAverager] catch_val_attr;
         try_block [CloseSocket] catch_all]).

(** [self.averaging.value = 0] (outside any [try]), then [_terminate()]. *)
Definition shutdown : list Ev * option Exn :=
  seq_blocks [try_block [ClearFlag] catch_none; terminate].
End Shutdown.

(** The steps a trace attempts, in order. *)
Fixpoint attempts (evs : list Ev) : list Act :=
  match evs with
  | [] => []
  | Did a :: evs' | Failed a _ :: evs' => a :: attempts evs'
  | Logged _ :: evs' => attempts evs'
  end.

(** The order of the shutdown steps when none of them fails. *)
Definition shutdown_order : list Act :=
  [ClearFlag; TermReader] ++ map TermUnpacker (seq 0 num_workers)
  ++ map TermAggregator (seq 0 num_aggregators)
  ++ [ClearFlag; Sleep1; TermAverager; CloseSocket].

(** The failures the [except] clauses of [_terminate] handle: a worker,
    aggregator or reader [terminate] raising [AttributeError], the
    averager's raising [AttributeError] or [ValueError], closing the socket
    raising anything; the flag assignments and the sleep do not raise. *)
Definition caught_only (fails : Act -> option Exn) : Prop :=
  fails ClearFlag = None /\ fails Sleep1 = None /\
  (forall a, In a (TermReader :: map TermUnpacker (seq 0 num_workers)
                   ++ map TermAggregator (seq 0 num_aggregators)) ->
     fails a = None \/ fails a = Some AttributeError) /\
  (fails TermAverager = None \/ fails TermAverager = Some AttributeError \/
   fails TermAverager = Some ValueError).

(** Every failure in a trace is followed by its log line. *)
Definition logged_ok (evs : list Ev) : Prop :=
  forall a x, In (Failed a x) evs -> In (Logged a) evs.

(** Every dataset of a monitor file has [n] rows. *)
Definition mon_len (n : nat) (m : MonFile) : Prop :=
  length (m_time m) = n /\ length (m_pkt_cnt m) = n /\
  length (m_power m) = n /\ length (m_kurtosis m) = n.

(** Row [j] of a monitor file of channel [c] holds the averages of [e]. *)
Definition row_of (c : Channel) (m : MonFile) (j : nat) (e : Epoch) : Prop :=
  nth_error (m_time m) j = ep_time e /\
  nth_error (m_pkt_cnt m) j = Some (to_int32 (hd 0 (ep_raw_pkt_cnt e))) /\
  nth_error (m_power m) j = Some (power_row (ep_pwr c e)) /\
  nth_error (m_kurtosis m) j = Some (kurtosis_row (ep_krt c e)).

(** The averager has processed the epochs [pre], one row each. *)
Definition avg_inv (pre : list Epoch) (s : AvgState) : Prop :=
  a_counter s = length pre /\
  forall c, mon_len (Nat.max 1 (length pre)) (a_file c s) /\
    forall j e, nth_error pre j = Some e -> row_of c (a_file c s) j e.

(** A block that completes, attempting [acts] and logging its failures. *)
Definition good_block (p : list Ev * option Exn) (acts : list Act) : Prop :=
  snd p = None /\ attempts (fst p) = acts /\ logged_ok (fst p).

(* ------------------------------------------------------------------ *)
(** ** Wiring of the workers [_create_workers_and_queues] (lines 345-389) *)

(** The loop [for count in range(nw)]: a new aggregator (and its queue) is
    made whenever [count % na == 0], with [aggregatorID = count/na], and
    unpacker [count] puts on [aggregator_queue[aggregatorID]], the last
    value bound. The result lists (unpacker, aggregator it feeds) and the
    aggregators created, in order; [None] if [aggregatorID] is unbound. *)
Section Wiring.
Local Open Scope nat_scope.

Fixpoint wire_go (na count fuel : nat) (agg : option nat)
  : option (list (nat * nat) * list nat) :=
  match fuel with
  | O => Some ([], [])
  | S f =>
      let '(agg', made) :=
        if Nat.eqb (count mod na) 0 then (Some (count / na), [count / na])
        else (agg, []) in
      match agg' with
      | None => None
      | Some a =>
          match wire_go na (S count) f agg' with
          | None => None
          | Some (us, ags) => Some ((count, a) :: us, made ++ ags)
          end
      end
  end.

(** [count % 0] raises [ZeroDivisionError] on the first unpacker. *)
Definition create_workers (nw na : nat) : option (list (nat * nat) * list nat) :=
  if Nat.eqb na 0 then (if Nat.eqb nw 0 then Some ([], []) else None)
  else wire_go na 0 nw None.
End Wiring.

(* ------------------------------------------------------------------ *)
(** ** Station number, band and monitor file paths in [__init__]
    (lines 289-315) *)

(** [int(s)] on a Python 2 [str], base 10: leading white space, an optional
    sign, white space again ([PyOS_strtoul] skips it too), at least one
    decimal digit, then trailing white space only. *)
Definition py_space (c : Byte.byte) : bool :=
  match c with
  | Byte.x20 | Byte.x09 | Byte.x0a | Byte.x0b | Byte.x0c | Byte.x0d => true
  | _ => false
  end.

Fixpoint drop_space (l : list Byte.byte) : list Byte.byte :=
  match l with
  | c :: l' => if py_space c then drop_space l' else l
  | [] => []
  end.

Definition digit_val (c : Byte.byte) : option Z :=
  let n := Z.of_N (Byte.to_N c) in
  if (48 <=? n) && (n <=? 57) then Some (n - 48) else None.

(** The digits, then only white space. *)
Fixpoint digits_from (acc : Z) (l : list Byte.byte) : option Z :=
  match l with
  | [] => Some acc
  | c :: l' =>
      match digit_val c with
      | Some v => digits_from (acc * 10 + v) l'
      | None => if forallb py_space l then Some acc else None
      end
  end.

Definition py_digits (l : list Byte.byte) : option Z :=
  match l with
  | c :: _ => match digit_val c with Some _ => digits_from 0 l | None => None end
  | [] => None
  end.

Definition py_int (s : list Byte.byte) : option Z :=
  match drop_space s with
  | Byte.x2b :: r => py_digits (drop_space r)
  | Byte.x2d :: r => option_map Z.opp (py_digits (drop_space r))
  | r => py_digits r
  end.

(** ["mon-"]. *)
Definition mon_prefix : list Byte.byte := [Byte.x6d; Byte.x6f; Byte.x6e; Byte.x2d].

Section Paths.
(** [session_data_path] as [get_obs_dirs("PESD", dss, year, yday)] returns
    it (a function of another package; year and day are those of the one
    [UTtuple]), and [name_suffix]. *)
Variable obs_data_path : Z -> list Byte.byte.
Variable name_suffix : list Byte.byte.

(** [self.dss] for both channels (line 292), then [self.band] and the paths
    [session_data_path + "mon-" + band + name_suffix] (lines 293-315). An
    [int()] that fails raises [ValueError]. *)
Definition monfile_paths (sig_I sig_Q : list Byte.byte)
  : option (list Byte.byte * list Byte.byte) :=
  match py_int (firstn 2 (skipn 1 sig_I)), py_int (firstn 2 (skipn 1 sig_Q)) with
  | Some dss_I, Some dss_Q =>
      Some (obs_data_path dss_I ++ mon_prefix ++ firstn 1 sig_I ++ name_suffix,
            obs_data_path dss_Q ++ mon_prefix ++ firstn 1 sig_Q ++ name_suffix)
  | _, _ => None
  end.
End Paths.

(* ------------------------------------------------------------------ *)
(** ** [open_monitor_files] on the HDF5 files (lines 174-193) *)

Inductive DsName := DsTime | DsPktCnt | DsPower | DsKurtosis.

Definition ds_eqb (x y : DsName) : bool :=
  match x, y with
  | DsTime, DsTime | DsPktCnt, DsPktCnt | DsPower, DsPower
  | DsKurtosis, DsKurtosis => true
  | _, _ => false
  end.

Fixpoint bytes_eqb (x y : list Byte.byte) : bool :=
  match x, y with
  | [], [] => true
  | a :: x', b :: y' => Byte.eqb a b && bytes_eqb x' y'
  | _, _ => false
  end.

(** The datasets each file (by path) holds. [h5py.File(path)] opens the
    file in mode ['a'], creating it when absent; it leaves the datasets as
    they are. *)
Definition H5Store := list Byte.byte -> list DsName.

(** [create_dataset] raises when the name exists in the file. *)
Definition create_dataset (path : list Byte.byte) (n : DsName) (st : H5Store)
  : option H5Store :=
  if existsb (ds_eqb n) (st path) then None
  else Some (fun p => if bytes_eqb p path then n :: st p else st p).

Definition open_channel (path : list Byte.byte) (st : H5Store) : option H5Store :=
  create_dataset path DsTime st >>= fun st =>
  create_dataset path DsPktCnt st >>= fun st =>
  create_dataset path DsPower st >>= fun st =>
  create_dataset path DsKurtosis st.

(** [for RF in "I", "Q"]. *)
Definition open_monitor_files (path_I path_Q : list Byte.byte) (st : H5Store)
  : option H5Store :=
  open_channel path_I st >>= fun st => open_channel path_Q st.

(* ------------------------------------------------------------------ *)
(** ** Concrete inputs *)

(** A datagram of [pkt_size] zero bytes. *)
Definition zero_packet : list Byte.byte := repeat Byte.x00 pkt_size.

(** Seven buffers of [pkt_size] bytes, the [n]-th made of the byte [n] and
    dequeued at time [n]. *)
Definition seven_packets : list (Q * list Byte.byte) :=
  map (fun n => (inject_Z (Z.of_nat n),
                 repeat (match Byte.of_nat n with Some x => x | None => Byte.x00 end)
                        pkt_size))
      (seq 0 7).

(** A datagram one byte longer than [pkt_size]. *)
Definition oversized_datagram : list Byte.byte := repeat Byte.x00 (S pkt_size).

(** The payload words [0, 1, ..., 4095]. *)
Definition ramp_payload : list Z := map Z.of_nat (seq 0 4096).

(** A one-packet epoch captured at time [t] whose raw packet counter is [rpc]. *)
Definition sample_epoch (t : Q) (rpc : Z) : Epoch :=
  mkEpoch (Some t) [repeat Byte.x41 8] [0] [0] [rpc]
    [repeat 1 1024] [repeat (1 # 2)%Q 1024] [repeat 2 1024] [repeat 0%Q 1024].

(** An epoch of three packets: power rows 1, 1, 2 and kurtosis rows 1, 1,
    1/4096 in both channels. *)
Definition three_packet_epoch : Epoch :=
  mkEpoch (Some 6%Q) (repeat (repeat Byte.x41 8) 3) [0; 0; 0] [0; 0; 0] [9; 10; 11]
    [repeat 1 1024; repeat 1 1024; repeat 2 1024]
    [repeat 1%Q 1024; repeat 1%Q 1024; repeat (1 # 4096)%Q 1024]
    [repeat 1 1024; repeat 1 1024; repeat 2 1024]
    [repeat 1%Q 1024; repeat 1%Q 1024; repeat (1 # 4096)%Q 1024].

Definition avg_state_of (es : list Epoch) : AvgState :=
  match average_one_second es with Some s => s | None => avg_init end.

(** A failure profile: unpacker 3 is missing its process, the averager's
    [terminate] raises [ValueError] and closing the socket raises. *)
Definition sample_failures (a : Act) : option Exn :=
  match a with
  | TermUnpacker 3 => Some AttributeError
  | TermAverager => Some ValueError
  | CloseSocket => Some OtherError
  | _ => None
  end.

(* ------------------------------------------------------------------ *)
(** ** Lemmas on the numpy helpers *)

Lemma chunk_as_map (rows cols : nat) (l : list Z) :
  chunk rows cols l =
  map (fun r => firstn cols (skipn (r * cols) l)) (seq 0 rows).
Proof.
  revert l; induction rows as [|rows IH]; intros l; [reflexivity|].
  cbn [chunk seq map]. rewrite IH, <- seq_shift, map_map. f_equal.
  apply map_ext; intros r. rewrite skipn_skipn. f_equal. f_equal. lia.
Qed.

Lemma firstn_seq_le (n s len : nat) :
  (n <= len)%nat -> firstn n (seq s len) = seq s n.
Proof.
  revert s len; induction n as [|n IH]; intros s len Hle; [reflexivity|].
  destruct len as [|len]; [lia|]. cbn. f_equal. apply IH. lia.
Qed.

Lemma column_rows (c cols k n : nat) (l : list Z) :
  (c < cols)%nat ->
  column c (map (fun r => firstn cols (skipn (r * cols) l)) (seq k n)) =
  map (fun r => nth (r * cols + c) l 0) (seq k n).
Proof.
  intros Hc. unfold column. rewrite map_map. apply map_ext; intros r.
  rewrite nth_firstn. destruct (Nat.ltb_spec c cols); [|lia].
  rewrite nth_skipn. reflexivity.
Qed.

Lemma unscramble_eq_spec (data : list Z) :
  length data = 4096%nat ->
  unscramble data = Some (spec_decode data).
Proof.
  intros Hlen. unfold unscramble, reshape. rewrite Hlen.
  replace (Nat.eqb 4096 (1024 * 4)) with true by reflexivity.
  cbv beta iota zeta. rewrite chunk_as_map.
  rewrite firstn_map, skipn_map, firstn_seq_le, skipn_seq by lia.
  replace (0 + 512)%nat with 512%nat by reflexivity.
  replace (1024 - 512)%nat with 512%nat by reflexivity.
  rewrite !column_rows by lia.
  unfold spec_decode, spec_slice, spec_D. f_equal; f_equal;
    repeat (f_equal; apply map_ext; intros r; f_equal; lia).
Qed.

(* ------------------------------------------------------------------ *)
(** ** Lemmas on the unpacker worker *)

Lemma add_packet_epoch_of (t : option Q) (qs : list (Unpacked * Decoded))
      (r : Unpacked) (d : Decoded) :
  add_packet (epoch_of t qs) r d = epoch_of t (qs ++ [(r, d)]).
Proof. unfold add_packet, epoch_of; cbn. rewrite !map_app. reflexivity. Qed.

Lemma set_time_epoch_of (t : Q) (t0 : option Q) (qs : list (Unpacked * Decoded)) :
  set_time t (epoch_of t0 qs) = epoch_of (Some t) qs.
Proof. reflexivity. Qed.

Lemma epoch_of_rows (t : option Q) (ps : list (Unpacked * Decoded)) :
  epoch_rows (length ps) (epoch_of t ps).
Proof. unfold epoch_rows, epoch_of; cbn; rewrite !length_map; tauto. Qed.

Section WorkerLemmas.
Variable b : nat.

(** The inner loop after its first packet: it appends exactly [c] decoded
    packets and leaves the time alone. *)
Lemma fill_tail (c : nat) (t : option Q) (qs : list (Unpacked * Decoded))
      (input rest : list (Q * list Byte.byte)) (e : Epoch) :
  (c < b)%nat ->
  fill b c (epoch_of t qs) input = Emit e rest ->
  exists ps, length ps = c /\
    Forall2 decodes_to (firstn c (map snd input)) ps /\
    rest = skipn c input /\ e = epoch_of t (qs ++ ps).
Proof.
  revert qs input; induction c as [|c IH]; intros qs input Hlt Hf.
  - cbn [fill] in Hf. inversion Hf; subst. exists []. rewrite app_nil_r.
    repeat split; constructor.
  - destruct input as [|[tm buf] input]; cbn [fill] in Hf; [discriminate|].
    rewrite (proj2 (Nat.eqb_neq (S c) b)) in Hf by lia.
    destruct (unpack_from buf) as [r|] eqn:Hu; [|discriminate].
    destruct (unscramble (u_data r)) as [d|] eqn:Hd; [|discriminate].
    rewrite add_packet_epoch_of in Hf.
    destruct (IH (qs ++ [(r, d)]) input ltac:(lia) Hf)
      as (ps & Hlen & Hdec & Hrest & He).
    exists ((r, d) :: ps). cbn. repeat split; try lia.
    + constructor; [split; assumption | exact Hdec].
    + exact Hrest.
    + rewrite He, <- app_assoc. reflexivity.
Qed.

(** One full run of the inner loop from an empty [one_second]. *)
Lemma fill_batch (input rest : list (Q * list Byte.byte)) (e : Epoch) :
  fill b b empty_epoch input = Emit e rest ->
  exists ps, length ps = b /\
    Forall2 decodes_to (firstn b (map snd input)) ps /\
    rest = skipn b input /\
    e = epoch_of (if Nat.eqb b 0 then None else option_map fst (hd_error input)) ps.
Proof.
  intros Hf. destruct b as [|c] eqn:Hb.
  - cbn [fill] in Hf. inversion Hf; subst. exists []. repeat split; constructor.
  - destruct input as [|[tm buf] input]; cbn [fill] in Hf; [discriminate|].
    rewrite Nat.eqb_refl in Hf.
    destruct (unpack_from buf) as [r|] eqn:Hu; [|discriminate].
    destruct (unscramble (u_data r)) as [d|] eqn:Hd; [|discriminate].
    change empty_epoch with (epoch_of None []) in Hf.
    rewrite set_time_epoch_of, add_packet_epoch_of in Hf.
    rewrite <- Hb in Hf.
    destruct (fill_tail c (Some tm) ([] ++ [(r, d)]) input rest e ltac:(lia) Hf)
      as (ps & Hlen & Hdec & Hrest & He).
    exists ((r, d) :: ps). cbn. repeat split; try lia.
    + constructor; [split; assumption | exact Hdec].
    + exact Hrest.
    + exact He.
Qed.

Lemma unscramble_packet_nth (fuel : nat) (input : list (Q * list Byte.byte))
      (k : nat) (e : Epoch) :
  nth_error (unscramble_packet b fuel input) k = Some e ->
  (S k * b <= length input)%nat /\
  exists ps, length ps = b /\
    Forall2 decodes_to (firstn b (skipn (k * b) (map snd input))) ps /\
    e = epoch_of (if Nat.eqb b 0 then None
                  else option_map fst (hd_error (skipn (k * b) input))) ps.
Proof.
  revert input k; induction fuel as [|fuel IH]; intros input k Hk.
  - destruct k; discriminate.
  - cbn [unscramble_packet] in Hk. destruct (fill b b empty_epoch input) as [e0 rest| |] eqn:Hf;
      [|destruct k; discriminate|destruct k; discriminate].
    destruct (fill_batch input rest e0 Hf) as (ps & Hlen & Hdec & Hrest & He0).
    assert (Hlen2 : length (firstn b (map snd input)) = b)
      by (rewrite (Forall2_length Hdec); exact Hlen).
    rewrite length_firstn, length_map in Hlen2.
    destruct k as [|k].
    + cbn [unscramble_packet] in Hk. inversion Hk; subst e0. split; [lia|].
      exists ps. cbn [Nat.mul skipn]. auto.
    + cbn [unscramble_packet] in Hk. destruct (IH rest k Hk) as (Hle & ps' & Hlen' & Hdec' & He').
      subst rest. rewrite length_skipn in Hle. split; [cbn [Nat.mul] in *; lia|].
      exists ps'. rewrite !skipn_map in *. rewrite !skipn_skipn in *.
      replace (S k * b)%nat with (k * b + b)%nat by lia. auto.
Qed.
End WorkerLemmas.

(* ------------------------------------------------------------------ *)
(** ** Lemmas on the packet reader *)

Section ReaderLemmas.
Local Open Scope nat_scope.
Variables b N : nat.
Hypothesis b_pos : (0 < b)%nat.
Hypothesis N_pos : (0 < N)%nat.

(** After [g] datagrams the loop counters are [unpacker = (g / b) mod N]
    and [count = g mod b]; one more [put] moves them to those of [g + 1]. *)
Lemma next_slot_spec (g : nat) :
  next_slot b N ((g / b) mod N) (g mod b) = ((S g / b) mod N, S g mod b).
Proof.
  pose proof (Nat.div_mod_eq g b) as Hg.
  pose proof (Nat.mod_upper_bound g b ltac:(lia)) as Hr.
  set (q := g / b) in *. set (r := g mod b) in *.
  unfold next_slot.
  destruct (Nat.ltb_spec (S r) b) as [Hlt|Hge].
  - assert (Hq : S g / b = q) by (symmetry; apply (Nat.div_unique _ _ _ (S r)); lia).
    assert (Hm : S g mod b = S r) by (symmetry; apply (Nat.mod_unique _ _ q); lia).
    rewrite Hq, Hm. reflexivity.
  - assert (Hq : S g / b = S q) by (symmetry; apply (Nat.div_unique _ _ _ 0); lia).
    assert (Hm : S g mod b = 0%nat) by (symmetry; apply (Nat.mod_unique _ _ (S q)); lia).
    rewrite Hq, Hm.
    pose proof (Nat.div_mod_eq q N) as Hq'.
    pose proof (Nat.mod_upper_bound q N ltac:(lia)) as Ht.
    set (s := q / N) in *. set (t := q mod N) in *.
    destruct (Nat.ltb_spec (S t) N) as [Hlt'|Hge'].
    + assert (S q mod N = S t) by (symmetry; apply (Nat.mod_unique _ _ s); lia).
      congruence.
    + assert (S q mod N = 0%nat) by (symmetry; apply (Nat.mod_unique _ _ (S s)); lia).
      congruence.
Qed.

Lemma reader_go_nth (ds : list (list Byte.byte)) (g i : nat) (d : list Byte.byte) :
  nth_error ds i = Some d ->
  nth_error (reader_go b N ((g / b) mod N) (g mod b) ds) i =
  Some (((g + i) / b) mod N, recvfrom d).
Proof.
  revert g i; induction ds as [|d0 ds IH]; intros g i Hi.
  - destruct i; discriminate.
  - destruct i as [|i]; cbn [reader_go nth_error] in *.
    + inversion Hi; subst. rewrite Nat.add_0_r. reflexivity.
    + rewrite next_slot_spec. rewrite (IH (S g) i Hi).
      replace (S g + i)%nat with (g + S i)%nat by lia. reflexivity.
Qed.

Lemma reader_go_length (ds : list (list Byte.byte)) (w c : nat) :
  length (reader_go b N w c ds) = length ds.
Proof.
  revert w c; induction ds as [|d ds IH]; intros w c; [reflexivity|].
  cbn [reader_go length]. destruct (next_slot b N w c). rewrite IH. reflexivity.
Qed.

Lemma get_packet_unfold (ds : list (list Byte.byte)) :
  get_packet b N ds = reader_go b N ((0 / b) mod N) (0 mod b) ds.
Proof.
  unfold get_packet.
  rewrite Nat.Div0.div_0_l, !Nat.Div0.mod_0_l.
  destruct (Nat.eqb_spec b 0), (Nat.eqb_spec N 0); try lia. reflexivity.
Qed.
End ReaderLemmas.

Lemma recvfrom_short (d : list Byte.byte) :
  (length d <= pkt_size)%nat -> recvfrom d = d.
Proof. intros H. unfold recvfrom. apply firstn_all2. exact H. Qed.

(* ------------------------------------------------------------------ *)
(** ** Lemmas on the averager *)

Section ListOps.
Local Open Scope nat_scope.
Context {A : Type}.

Lemma resize_length (n : nat) (f : A) (l : list A) :
  length (resize n f l) = n.
Proof.
  unfold resize. rewrite length_app, length_firstn, repeat_length. lia.
Qed.

Lemma resize_nth (n : nat) (f : A) (l : list A) (j : nat) :
  j < length l -> j < n -> nth_error (resize n f l) j = nth_error l j.
Proof.
  intros Hl Hn. unfold resize.
  rewrite nth_error_app1 by (rewrite length_firstn; lia).
  rewrite nth_error_firstn. destruct (Nat.ltb_spec j n); [reflexivity|lia].
Qed.

Lemma set_row_spec (i : nat) (v : A) (l l' : list A) :
  set_row i v l = Some l' ->
  length l' = length l /\ nth_error l' i = Some v /\
  (forall j, j <> i -> nth_error l' j = nth_error l j).
Proof.
  unfold set_row. destruct (Nat.ltb_spec i (length l)) as [Hi|]; [|discriminate].
  intros H; injection H as <-.
  assert (Hf : length (firstn i l) = i) by (rewrite length_firstn; lia).
  repeat split.
  - rewrite length_app; cbn [length]. rewrite Hf, length_skipn. lia.
  - rewrite nth_error_app2 by lia. rewrite Hf, Nat.sub_diag. reflexivity.
  - intros j Hj. destruct (Nat.ltb_spec j i).
    + rewrite nth_error_app1 by lia. rewrite nth_error_firstn.
      destruct (Nat.ltb_spec j i); [reflexivity|lia].
    + rewrite nth_error_app2 by lia. rewrite Hf.
      destruct (j - i) as [|k] eqn:Hk; [lia|]. cbn.
      rewrite nth_error_skipn. f_equal. lia.
Qed.
End ListOps.

(** One channel of one averaging step: the file grows from [max 1 n] to
    [n + 1] rows, rows below [n] are kept and row [n] is written. *)
Lemma average_channel_spec (n : nat) (t : Q) (rpc : Z) (pw : list (list Z))
      (kr : list (list Q)) (m m' : MonFile) :
  mon_len (Nat.max 1 n) m ->
  average_channel n t rpc pw kr m = Some m' ->
  mon_len (S n) m' /\
  nth_error (m_time m') n = Some t /\
  nth_error (m_pkt_cnt m') n = Some (to_int32 rpc) /\
  nth_error (m_power m') n = Some (power_row pw) /\
  nth_error (m_kurtosis m') n = Some (kurtosis_row kr) /\
  (forall j, (j < n)%nat ->
     nth_error (m_time m') j = nth_error (m_time m) j /\
     nth_error (m_pkt_cnt m') j = nth_error (m_pkt_cnt m) j /\
     nth_error (m_power m') j = nth_error (m_power m) j /\
     nth_error (m_kurtosis m') j = nth_error (m_kurtosis m) j).
Proof.
  intros (H1 & H2 & H3 & H4) Hm. unfold average_channel in Hm.
  set (m0 := if Nat.eqb n 0 then m else resize_all (S n) m) in Hm.
  assert (Hlen0 : mon_len (S n) m0 /\
    forall j, (j < n)%nat ->
     nth_error (m_time m0) j = nth_error (m_time m) j /\
     nth_error (m_pkt_cnt m0) j = nth_error (m_pkt_cnt m) j /\
     nth_error (m_power m0) j = nth_error (m_power m) j /\
     nth_error (m_kurtosis m0) j = nth_error (m_kurtosis m) j).
  { unfold m0. destruct (Nat.eqb_spec n 0) as [->|Hn].
    - split; [unfold mon_len; cbn in *; lia | intros; lia].
    - unfold mon_len; cbn [resize_all m_time m_pkt_cnt m_power m_kurtosis].
      rewrite !resize_length. split; [tauto|].
      intros j Hj. rewrite !resize_nth by lia. tauto. }
  destruct Hlen0 as ((L1 & L2 & L3 & L4) & Hkeep).
  unfold bind_opt in Hm.
  destruct (set_row n t (m_time m0)) as [tl|] eqn:E1; [|discriminate].
  destruct (set_row n (to_int32 rpc) (m_pkt_cnt m0)) as [pl|] eqn:E2; [|discriminate].
  destruct (set_row n (power_row pw) (m_power m0)) as [wl|] eqn:E3;
    [|discriminate].
  destruct (set_row n (kurtosis_row kr) (m_kurtosis m0)) as [kl|] eqn:E4; [|discriminate].
  inversion Hm; subst m'; clear Hm.
  apply set_row_spec in E1, E2, E3, E4.
  destruct E1 as (T1 & T2 & T3), E2 as (P1 & P2 & P3),
           E3 as (W1 & W2 & W3), E4 as (K1 & K2 & K3).
  cbn [m_time m_pkt_cnt m_power m_kurtosis].
  split; [unfold mon_len; cbn [m_time m_pkt_cnt m_power m_kurtosis]; lia|].
  do 4 (split; [assumption|]).
  intros j Hj. rewrite T3, P3, W3, K3 by lia. apply Hkeep; exact Hj.
Qed.

Lemma nth_error_snoc {A} (l : list A) (x : A) (j : nat) :
  nth_error (l ++ [x]) j =
  if Nat.ltb j (length l) then nth_error l j
  else if Nat.eqb j (length l) then Some x else None.
Proof.
  destruct (Nat.ltb_spec j (length l)).
  - apply nth_error_app1; lia.
  - rewrite nth_error_app2 by lia. destruct (Nat.eqb_spec j (length l)).
    + subst. rewrite Nat.sub_diag. reflexivity.
    + destruct (j - length l)%nat as [|k] eqn:Hk; [lia|]. destruct k; reflexivity.
Qed.

Lemma average_step_inv (pre : list Epoch) (s s' : AvgState) (e : Epoch) :
  avg_inv pre s -> average_step s e = Some s' -> avg_inv (pre ++ [e]) s'.
Proof.
  intros (Hc & Hf) Hs. unfold average_step in Hs.
  destruct (ep_time e) as [t|] eqn:Ht; [|discriminate].
  destruct (ep_raw_pkt_cnt e) as [|rpc rest] eqn:Hr; [discriminate|].
  unfold bind_opt in Hs.
  destruct (average_channel (a_counter s) t rpc (ep_pwr ChI e) (ep_krt ChI e) (a_file_I s))
    as [fI|] eqn:EI; [|discriminate].
  destruct (average_channel (a_counter s) t rpc (ep_pwr ChQ e) (ep_krt ChQ e) (a_file_Q s))
    as [fQ|] eqn:EQ; [|discriminate].
  inversion Hs; subst s'; clear Hs.
  split; [cbn; rewrite length_app, Hc; cbn; lia|].
  intros c.
  assert (Hch : exists f, average_channel (a_counter s) t rpc (ep_pwr c e) (ep_krt c e)
                            (a_file c s) = Some f /\ a_file c (mkAvg (S (a_counter s)) fI fQ) = f)
    by (destruct c; eexists; split; eauto).
  destruct Hch as (f & Ef & ->).
  destruct (Hf c) as (Hlen & Hrows).
  rewrite Hc in Ef.
  destruct (average_channel_spec _ _ _ _ _ _ _ Hlen Ef)
    as (Hl' & N1 & N2 & N3 & N4 & Hkeep).
  rewrite length_app; cbn [length].
  split; [replace (Nat.max 1 (length pre + 1)) with (S (length pre)) by lia; exact Hl'|].
  intros j e' Hj. rewrite nth_error_snoc in Hj.
  destruct (Nat.ltb_spec j (length pre)).
  - destruct (Hrows j e' Hj) as (R1 & R2 & R3 & R4).
    destruct (Hkeep j ltac:(lia)) as (S1 & S2 & S3 & S4).
    unfold row_of. rewrite S1, S2, S3, S4. tauto.
  - destruct (Nat.eqb_spec j (length pre)); [|discriminate].
    inversion Hj; subst e' j. unfold row_of. rewrite Ht, Hr. cbn [hd]. tauto.
Qed.

Lemma average_run_inv (es pre : list Epoch) (s s' : AvgState) :
  avg_inv pre s -> average_run s es = Some s' -> avg_inv (pre ++ es) s'.
Proof.
  revert pre s; induction es as [|e es IH]; intros pre s Hinv Hrun.
  - cbn in Hrun. inversion Hrun; subst. rewrite app_nil_r. exact Hinv.
  - cbn [average_run bind_opt] in Hrun.
    destruct (average_step s e) as [s1|] eqn:Hs; [|discriminate].
    replace (pre ++ e :: es) with ((pre ++ [e]) ++ es) by (rewrite <- app_assoc; reflexivity).
    apply (IH (pre ++ [e]) s1); [apply (average_step_inv pre s); assumption | exact Hrun].
Qed.

Lemma avg_inv_init : avg_inv [] avg_init.
Proof.
  split; [reflexivity|]. intros c. split.
  - destruct c; repeat split; reflexivity.
  - intros j e H. destruct j; discriminate.
Qed.

(* ------------------------------------------------------------------ *)
(** ** Lemmas on the clock and the main loop *)

Lemma gmtime_hour_range (t : Q) :
  0 <= fst (fst (gmtime_hms t)) <= 23.
Proof.
  unfold gmtime_hms. cbv beta zeta. cbn [fst].
  pose proof (Z.mod_pos_bound (time_t_of t) 86400 ltac:(lia)).
  set (d := time_t_of t mod 86400) in *. Z.div_mod_to_equations. lia.
Qed.

Lemma run_loop_stops_at (target : Z * Z * Z) (pre post : list Epoch)
      (e : Epoch) (t : Q) (st : RunState) :
  Forall (fun e' => exists t', ep_time e' = Some t' /\
                               hms_eqb (gmtime_hms t') target = false) pre ->
  ep_time e = Some t -> hms_eqb (gmtime_hms t) target = true ->
  run_loop target (pre ++ e :: post) st =
  Stopped (mkRun (r_monitor st ++ pre)
                 (r_groups st ++ combine (seq (r_grpnum st) (length pre)) pre)
                 (r_grpnum st + length pre)).
Proof.
  intros Hpre Ht Hm. revert st; induction Hpre as [|e' pre (t' & Ht' & Hm') _ IH];
    intros st.
  - cbn [app run_loop length seq combine]. rewrite Ht, Hm, !app_nil_r, Nat.add_0_r.
    destruct st; reflexivity.
  - cbn [app run_loop]. rewrite Ht', Hm'. rewrite IH. cbn [r_monitor r_groups r_grpnum].
    rewrite <- !app_assoc. cbn [length seq combine app]. f_equal. f_equal. lia.
Qed.

Lemma run_loop_never_stops (target : Z * Z * Z) (es : list Epoch) (st st' : RunState) :
  (forall t, hms_eqb (gmtime_hms t) target = false) ->
  run_loop target es st <> Stopped st'.
Proof.
  intros Hn. revert st; induction es as [|e es IH]; intros st; cbn [run_loop].
  - discriminate.
  - destruct (ep_time e) as [t|]; [|discriminate]. rewrite Hn. apply IH.
Qed.

(* ------------------------------------------------------------------ *)
(** ** Lemmas on the shutdown *)

Lemma attempts_app (l1 l2 : list Ev) : attempts (l1 ++ l2) = attempts l1 ++ attempts l2.
Proof.
  induction l1 as [|[a|a x|a] l1 IH]; cbn; try rewrite IH; reflexivity.
Qed.

Lemma logged_ok_app (l1 l2 : list Ev) :
  logged_ok l1 -> logged_ok l2 -> logged_ok (l1 ++ l2).
Proof.
  unfold logged_ok. intros H1 H2 a x Hin. apply in_app_or in Hin.
  apply in_or_app. destruct Hin; [left; eauto | right; eauto].
Qed.

Lemma seq_blocks_good (bs : list (list Ev * option Exn)) (actss : list (list Act)) :
  Forall2 good_block bs actss -> good_block (seq_blocks bs) (concat actss).
Proof.
  induction 1 as [|[evs r] acts bs actss (Hr & Ha & Hl) _ IH].
  - repeat split. intros a x []. 
  - cbn in Hr; subst r. cbn [seq_blocks concat].
    destruct (seq_blocks bs) as [evs' r'] eqn:E. destruct IH as (Hr' & Ha' & Hl').
    cbn [fst snd] in *. split; [exact Hr'|]. split.
    + cbn [fst]. rewrite attempts_app. congruence.
    + cbn [fst]. apply logged_ok_app; assumption.
Qed.

Lemma try_block_single_good (fails : Act -> option Exn) (a : Act) (caught : Exn -> bool) :
  fails a = None \/ (exists x, fails a = Some x /\ caught x = true) ->
  good_block (try_block fails [a] caught) [a].
Proof.
  intros [H | (x & H & Hc)]; cbn [try_block]; rewrite H.
  - cbn. repeat split. intros b x [H' | []]; discriminate.
  - rewrite Hc. repeat split. intros b y [H' | [H' | []]]; [|discriminate].
    injection H' as -> ->. right; left; reflexivity.
Qed.

Lemma Forall2_map_seq (f : nat -> list Ev * option Exn) (g : nat -> Act) (l : list nat) :
  (forall i, In i l -> good_block (f i) [g i]) ->
  Forall2 good_block (map f l) (map (fun i => [g i]) l).
Proof.
  induction l as [|i l IH]; intros H; constructor.
  - apply H; left; reflexivity.
  - apply IH; intros j Hj; apply H; right; exact Hj.
Qed.

Lemma hms_eqb_spec (x y : Z * Z * Z) : hms_eqb x y = true <-> x = y.
Proof.
  destruct x as [[h1 m1] s1], y as [[h2 m2] s2]. unfold hms_eqb.
  rewrite !andb_true_iff, !Z.eqb_eq. split.
  - intros ((-> & ->) & ->). reflexivity.
  - intros H. injection H as -> -> ->. tauto.
Qed.

Lemma hms_eqb_false (x y : Z * Z * Z) : x <> y -> hms_eqb x y = false.
Proof.
  intros H. destruct (hms_eqb x y) eqn:E; [|reflexivity].
  apply hms_eqb_spec in E. contradiction.
Qed.

(* ================================================================== *)
(** * The claims *)

(** C1. For a payload of 4096 words, [unscramble] returns the four arrays
    the data model describes ([power_I] from rows 0..511 of columns 0 and 1,
    [power_Q] from rows 512..1023, the kurtosis arrays from columns 2 and 3
    divided by 4096), each of 1024 elements. [unscramble] is a function of
    the payload alone: it reads no state and writes none. *)
Theorem unscramble_correct (data : list Z) :
  length data = 4096%nat ->
  unscramble data = Some (spec_decode data) /\
  length (power_I (spec_decode data)) = 1024%nat /\
  length (power_Q (spec_decode data)) = 1024%nat /\
  length (kurt_I (spec_decode data)) = 1024%nat /\
  length (kurt_Q (spec_decode data)) = 1024%nat.
Proof.
  intros Hlen. split; [apply unscramble_eq_spec; exact Hlen|].
  unfold spec_decode, spec_slice, scale_4096.
  cbn [power_I power_Q kurt_I kurt_Q].
  rewrite !length_map, !length_app, !length_map, !length_seq. repeat split.
Qed.

Lemma unscramble_correct_witness :
  length ramp_payload = 4096%nat /\
  unscramble ramp_payload = Some (spec_decode ramp_payload).
Proof.
  assert (H : length ramp_payload = 4096%nat) by reflexivity.
  split; [exact H | exact (proj1 (unscramble_correct ramp_payload H))].
Defined.

(** C2. For any batch size [b], the [k]-th epoch a worker puts on its output
    queue was built from exactly the [b] packets [k*b .. k*b+b-1] of its
    input, all dequeued and decoded: its header list, its three counter
    lists and its four sample lists each have exactly [b] entries, and at
    least [(k+1)*b] packets had been dequeued when it was put. *)
Theorem worker_emits_full_epochs (b fuel : nat) (input : list (Q * list Byte.byte))
        (k : nat) (e : Epoch) :
  nth_error (unscramble_packet b fuel input) k = Some e ->
  epoch_rows b e /\
  (S k * b <= length input)%nat /\
  exists ps, Forall2 decodes_to (firstn b (skipn (k * b) (map snd input))) ps /\
    e = epoch_of (if Nat.eqb b 0 then None
                  else option_map fst (hd_error (skipn (k * b) input))) ps.
Proof.
  intros Hk. destruct (unscramble_packet_nth b fuel input k e Hk)
    as (Hle & ps & Hlen & Hdec & He).
  split; [|split; [exact Hle | exists ps; split; assumption]].
  rewrite He, <- Hlen. apply epoch_of_rows.
Qed.

Lemma worker_emits_full_epochs_witness :
  nth_error (unscramble_packet 3 3 seven_packets) 1 =
    Some (nth 1 (unscramble_packet 3 3 seven_packets) empty_epoch) /\
  epoch_rows 3 (nth 1 (unscramble_packet 3 3 seven_packets) empty_epoch) /\
  (2 * 3 <= length seven_packets)%nat /\
  ep_time (nth 1 (unscramble_packet 3 3 seven_packets) empty_epoch) = Some 3%Q /\
  length (unscramble_packet 3 3 seven_packets) = 2%nat.
Proof.
  assert (H : nth_error (unscramble_packet 3 3 seven_packets) 1 =
              Some (nth 1 (unscramble_packet 3 3 seven_packets) empty_epoch))
    by (vm_compute; reflexivity).
  destruct (worker_emits_full_epochs 3 3 _ 1 _ H) as (Hr & Hl & _).
  split; [exact H|]. split; [exact Hr|]. split; [exact Hl|].
  split; vm_compute; reflexivity.
Defined.

(** C3 (as the code has it). With [b, N > 0], the reader puts datagram [i]
    on the queue of worker [(i / b) mod N], so each worker receives [b]
    consecutive datagrams before the next one in cyclic order; what it
    puts is what [recvfrom(pkt_size)] returns, the first [pkt_size] bytes
    of the datagram, which is the datagram itself when it is no longer
    than [pkt_size] bytes. *)
Theorem get_packet_routes (b N : nat) (ds : list (list Byte.byte)) :
  (0 < b)%nat -> (0 < N)%nat ->
  length (get_packet b N ds) = length ds /\
  forall i d, nth_error ds i = Some d ->
    nth_error (get_packet b N ds) i = Some (((i / b) mod N)%nat, recvfrom d) /\
    ((length d <= pkt_size)%nat -> recvfrom d = d).
Proof.
  intros Hb HN. rewrite (get_packet_unfold b N Hb HN).
  split; [apply reader_go_length|].
  intros i d Hi. split; [|apply recvfrom_short].
  rewrite (reader_go_nth b N Hb HN ds 0 i d Hi). reflexivity.
Qed.

Lemma get_packet_routes_witness :
  (0 < max_count)%nat /\ (0 < num_workers)%nat /\
  length (get_packet max_count num_workers [[Byte.x01]; [Byte.x02]]) = 2%nat.
Proof.
  assert (H1 : (0 < max_count)%nat) by (unfold max_count; lia).
  assert (H2 : (0 < num_workers)%nat) by (unfold num_workers; lia).
  split; [exact H1 | split; [exact H2|]].
  exact (proj1 (get_packet_routes max_count num_workers [[Byte.x01]; [Byte.x02]] H1 H2)).
Defined.

(** C3 fails as stated: a datagram longer than [pkt_size] bytes is not put
    unmodified on the queue, [recvfrom(pkt_size)] cuts it. *)
Lemma get_packet_truncates :
  nth_error (get_packet max_count num_workers [oversized_datagram]) 0 <>
  Some (0%nat, oversized_datagram).
Proof.
  intros H. vm_compute in H. injection H as H.
  apply (f_equal (@length Byte.byte)) in H. vm_compute in H. discriminate.
Qed.

Lemma to_int32_small (x : Z) : 0 <= x < 2 ^ 31 -> to_int32 x = x.
Proof.
  intros Hx. unfold to_int32. rewrite Z.mod_small by lia. lia.
Qed.

Lemma average_one_second_inv (es : list Epoch) (s : AvgState) :
  average_one_second es = Some s -> avg_inv es s.
Proof.
  intros H. apply (average_run_inv es [] avg_init s avg_inv_init H).
Qed.






(** C6 (code_bug). Started at 23:00:00 UTC without an end time, the server
    sets its target to (24, 0, 0), not to the top of the next UTC hour
    (00:00:00): an epoch stamped 00:00:00 the next day does not stop the
    main loop, which goes on to record it. *)
Theorem default_end_misses_midnight :
  end_target None 82800 = (24, 0, 0) /\
  gmtime_hms 86400 = (0, 0, 0) /\
  run (end_target None 82800) [sample_epoch 86400 0] =
    Waiting (mkRun [sample_epoch 86400 0] [(0%nat, sample_epoch 86400 0)] 1).
Proof.
  split; [reflexivity|]. split; [reflexivity|]. vm_compute. reflexivity.
Qed.

(** C7 fails as stated: with no failures, the shutdown clears the
    averager's flag before it stops the reader, stops the averager before
    it closes the socket, and never closes the raw store. *)
Lemma shutdown_not_averager_last :
  hd (Did Sleep1) (fst (shutdown (fun _ => None))) = Did ClearFlag /\
  last (fst (shutdown (fun _ => None))) (Did Sleep1) = Did CloseSocket /\
  ~ In (Did CloseRawStore) (fst (shutdown (fun _ => None))).
Proof.
  split; [reflexivity|]. split; [reflexivity|].
  intros Hin. vm_compute in Hin.
  repeat (destruct Hin as [Hin|Hin]; [discriminate|]). exact Hin.
Qed.

(** C7 (as the code has it). When the failures are those [_terminate]
    catches, the shutdown runs to its end and attempts, in order: clearing
    the averager's flag (in [run]), terminating the reader, the 16
    unpackers and the 4 aggregators, clearing the flag again, sleeping one
    second, terminating the averager, closing the socket; every failure is
    logged; the raw store is never closed. *)
Theorem shutdown_sequence (fails : Act -> option Exn) :
  caught_only fails ->
  snd (shutdown fails) = None /\
  attempts (fst (shutdown fails)) = shutdown_order /\
  logged_ok (fst (shutdown fails)) /\
  ~ In CloseRawStore (attempts (fst (shutdown fails))).
Proof.
  intros (H1 & H2 & H3 & H4).
  assert (Hw : forall a caught, caught AttributeError = true ->
            In a (TermReader :: map TermUnpacker (seq 0 num_workers)
                  ++ map TermAggregator (seq 0 num_aggregators)) ->
            good_block (try_block fails [a] caught) [a]).
  { intros a caught Hc Ha. apply try_block_single_good.
    destruct (H3 a Ha) as [E|E]; [left; exact E | right; exists AttributeError; auto]. }
  assert (Ht : good_block (terminate fails)
    (concat ([[TermReader]] ++ map (fun i => [TermUnpacker i]) (seq 0 num_workers)
             ++ map (fun i => [TermAggregator i]) (seq 0 num_aggregators)
             ++ [[ClearFlag; Sleep1; TermAverager]; [CloseSocket]]))).
  { unfold terminate. apply seq_blocks_good.
    apply Forall2_app; [constructor; [apply Hw; [reflexivity | left; reflexivity] | constructor]|].
    apply Forall2_app.
    { apply Forall2_map_seq. intros i Hi. apply Hw; [reflexivity|].
      right. apply in_or_app. left. apply in_map. exact Hi. }
    apply Forall2_app.
    { apply Forall2_map_seq. intros i Hi. apply Hw; [reflexivity|].
      right. apply in_or_app. right. apply in_map. exact Hi. }
    constructor; [|constructor; [|constructor]].
    - unfold good_block. cbn [try_block]. rewrite H1, H2.
      destruct H4 as [E|[E|E]]; rewrite E; cbn.
      + repeat split. intros a x Hin. repeat (destruct Hin as [Hin|Hin]; [discriminate|]).
        destruct Hin.
      + repeat split. intros a x Hin. repeat (destruct Hin as [Hin|Hin]; [try discriminate|]);
          [injection Hin as <- _; right; right; right; left; reflexivity | destruct Hin].
      + repeat split. intros a x Hin. repeat (destruct Hin as [Hin|Hin]; [try discriminate|]);
          [injection Hin as <- _; right; right; right; left; reflexivity | destruct Hin].
    - apply try_block_single_good. destruct (fails CloseSocket) as [x|];
        [right; exists x; auto | left; reflexivity]. }
  assert (Hs : good_block (shutdown fails) shutdown_order).
  { unfold shutdown.
    replace shutdown_order with
      (concat [[ClearFlag];
               concat ([[TermReader]] ++ map (fun i => [TermUnpacker i]) (seq 0 num_workers)
                 ++ map (fun i => [TermAggregator i]) (seq 0 num_aggregators)
                 ++ [[ClearFlag; Sleep1; TermAverager]; [CloseSocket]])])
      by reflexivity.
    apply seq_blocks_good. constructor; [|constructor; [exact Ht | constructor]].
    apply try_block_single_good. left. exact H1. }
  destruct Hs as (A & B & C). split; [exact A|]. split; [exact B|]. split; [exact C|].
  rewrite B. intros Hin. vm_compute in Hin.
  repeat (destruct Hin as [Hin|Hin]; [discriminate|]). exact Hin.
Qed.

Lemma shutdown_sequence_witness :
  caught_only sample_failures /\
  attempts (fst (shutdown sample_failures)) = shutdown_order.
Proof.
  assert (H : caught_only sample_failures).
  { split; [reflexivity|]. split; [reflexivity|]. split.
    - intros a Ha. vm_compute in Ha.
      repeat (destruct Ha as [<-|Ha]; [vm_compute; auto|]). destruct Ha.
    - right; right; reflexivity. }
  split; [exact H | exact (proj1 (proj2 (shutdown_sequence sample_failures H)))].
Defined.

(** C8 fails as stated: a datagram that does arrive within the window but
    is shorter than the packet format (here a bare 16-byte header) makes
    [unpack_from] raise, so startup does not go on with its header. *)
Lemma sniff_short_datagram_crashes :
  sniff_signal (Some (repeat Byte.x41 16)) = StartCrash.
Proof. vm_compute. reflexivity. Qed.

(** C8 (as the code has it). With no datagram within the 2 s window the
    server calls [sys.exit(1)]. A datagram of at least [pkt_size] bytes
    gives the I and Q signal codes, its first and next four bytes; a
    shorter one makes [unpack_from] raise. *)
Theorem startup_sniff :
  sniff_signal None = StartExit 1 /\
  (forall d, (pkt_size <= length d)%nat ->
     sniff_signal (Some d) = StartSignals (firstn 4 d) (firstn 4 (skipn 4 d))) /\
  (forall d, (length d < pkt_size)%nat -> sniff_signal (Some d) = StartCrash).
Proof.
  split; [reflexivity|]. split.
  - intros d Hd. unfold sniff_signal, recvfrom, unpack_from.
    rewrite length_firstn, Nat.min_l by exact Hd. rewrite Nat.ltb_irrefl.
    cbn [u_hdr]. rewrite !skipn_firstn_comm, !firstn_firstn. reflexivity.
  - intros d Hd. unfold sniff_signal, recvfrom, unpack_from.
    rewrite length_firstn, Nat.min_r by lia.
    destruct (Nat.ltb_spec (length d) pkt_size); [reflexivity | lia].
Qed.

Lemma startup_sniff_witness :
  (pkt_size <= length zero_packet)%nat /\
  sniff_signal (Some zero_packet) =
    StartSignals (firstn 4 zero_packet) (firstn 4 (skipn 4 zero_packet)).
Proof.
  assert (H : (pkt_size <= length zero_packet)%nat)
    by (unfold zero_packet; rewrite repeat_length; apply Nat.le_refl).
  split; [exact H | exact (proj1 (proj2 startup_sniff) zero_packet H)].
Defined.

(** C9. When the main loop dequeues an epoch whose UTC hour, minute and
    second equal the target, after epochs that did not, it stops with
    exactly the earlier epochs forwarded to the monitor queue and written
    as groups [0 .. n-1]: the matching epoch is neither forwarded nor
    written, and [grpnum] does not count it. *)
Theorem end_epoch_discarded (target : Z * Z * Z) (pre post : list Epoch)
        (e : Epoch) (t : Q) :
  Forall (fun e' => exists t', ep_time e' = Some t' /\ gmtime_hms t' <> target) pre ->
  ep_time e = Some t -> gmtime_hms t = target ->
  run target (pre ++ e :: post) =
  Stopped (mkRun pre (combine (seq 0 (length pre)) pre) (length pre)).
Proof.
  intros Hpre Ht Hm. unfold run.
  rewrite (run_loop_stops_at target pre post e t run_init).
  - reflexivity.
  - eapply Forall_impl; [|exact Hpre]. intros e' (t' & H1 & H2).
    exists t'. split; [exact H1 | apply hms_eqb_false; exact H2].
  - exact Ht.
  - apply hms_eqb_spec. exact Hm.
Qed.

Lemma end_epoch_discarded_witness :
  run (0, 0, 0) ([sample_epoch 5 1] ++ sample_epoch 86400 2 :: [sample_epoch 86401 3]) =
  Stopped (mkRun [sample_epoch 5 1] [(0%nat, sample_epoch 5 1)] 1).
Proof.
  apply (end_epoch_discarded (0, 0, 0) [sample_epoch 5 1] [sample_epoch 86401 3]
           (sample_epoch 86400 2) 86400).
  - constructor; [|constructor]. exists 5%Q. split; [reflexivity | discriminate].
  - reflexivity.
  - reflexivity.
Defined.

(** C10. Started during UTC hour 23 without an end time, the target hour is
    24, which no timestamp's UTC hour (always in 0..23) equals: the stop
    test never holds and the main loop never stops through it. *)
Theorem hour23_never_stops (now : Q) :
  fst (fst (gmtime_hms now)) = 23 ->
  end_target None now = (24, 0, 0) /\
  (forall t, 0 <= fst (fst (gmtime_hms t)) <= 23 /\ gmtime_hms t <> end_target None now) /\
  (forall es st, run (end_target None now) es <> Stopped st).
Proof.
  intros H.
  assert (Ht : end_target None now = (24, 0, 0)).
  { unfold end_target. destruct (gmtime_hms now) as [[h m] s]. cbn in H. subst h.
    reflexivity. }
  assert (Hne : forall t, gmtime_hms t <> (24, 0, 0)).
  { intros t Heq. pose proof (gmtime_hour_range t) as Hr. rewrite Heq in Hr.
    cbn in Hr. lia. }
  split; [exact Ht|]. split.
  - intros t. split; [apply gmtime_hour_range | rewrite Ht; apply Hne].
  - intros es st. rewrite Ht. apply run_loop_never_stops.
    intros t. apply hms_eqb_false. apply Hne.
Qed.

Lemma hour23_never_stops_witness :
  fst (fst (gmtime_hms 82800)) = 23 /\ end_target None 82800 = (24, 0, 0).
Proof.
  assert (H : fst (fst (gmtime_hms 82800)) = 23) by reflexivity.
  split; [exact H | exact (proj1 (hour23_never_stops 82800 H))].
Defined.

(* ================================================================== *)
(** * Further properties of the code *)

(* ------------------------------------------------------------------ *)
(** ** Field ranges of [unpack_from] *)

Lemma byte_Z_range (x : Byte.byte) : 0 <= byte_Z x < 256.
Proof. unfold byte_Z. pose proof (Byte.to_N_bounded x). lia. Qed.

Lemma be_uint_go (l : list Byte.byte) (acc k : Z) :
  0 <= k -> 0 <= acc < 256 ^ k ->
  0 <= fold_left (fun acc x => acc * 256 + byte_Z x) l acc
    < 256 ^ (k + Z.of_nat (length l)).
Proof.
  revert acc k; induction l as [|x l IH]; intros acc k Hk Hacc.
  - cbn. rewrite Z.add_0_r. exact Hacc.
  - cbn [fold_left length]. rewrite Nat2Z.inj_succ.
    replace (k + Z.succ (Z.of_nat (length l))) with ((k + 1) + Z.of_nat (length l)) by lia.
    apply IH; [lia|]. rewrite Z.pow_add_r, Z.pow_1_r by lia.
    pose proof (byte_Z_range x). nia.
Qed.

Lemma be_uint_range (l : list Byte.byte) :
  0 <= be_uint l < 256 ^ Z.of_nat (length l).
Proof.
  unfold be_uint. pose proof (be_uint_go l 0 0 ltac:(lia) ltac:(cbn; lia)) as H.
  rewrite Z.add_0_l in H. exact H.
Qed.

Lemma be_uint_firstn_range (n : nat) (l : list Byte.byte) :
  0 <= be_uint (firstn n l) < 256 ^ Z.of_nat n.
Proof.
  pose proof (be_uint_range (firstn n l)) as H. split; [lia|].
  eapply Z.lt_le_trans; [apply H|]. apply Z.pow_le_mono_r; [lia|].
  rewrite length_firstn. lia.
Qed.

Lemma be16s_length (n : nat) (l : list Byte.byte) : length (be16s n l) = n.
Proof. revert l; induction n as [|n IH]; intros l; cbn; [|rewrite IH]; reflexivity. Qed.

Lemma be16s_range (n : nat) (l : list Byte.byte) :
  Forall (fun w => 0 <= w < 65536) (be16s n l).
Proof.
  revert l; induction n as [|n IH]; intros l; constructor; [|apply IH].
  apply (be_uint_firstn_range 2 l).
Qed.

Lemma pkt_size_ge_16 : (16 <= pkt_size)%nat.
Proof. apply Nat.leb_le. reflexivity. Qed.

(** Every buffer of at least [pkt_size] bytes unpacks; the fields have the
    ranges of their struct codes. *)
Lemma unpack_from_fields (buf : list Byte.byte) :
  (pkt_size <= length buf)%nat ->
  exists r, unpack_from buf = Some r /\
    length (u_hdr r) = 8%nat /\
    0 <= u_pkt_cnt_sec r < 2 ^ 16 /\ 0 <= u_sec_cnt r < 2 ^ 16 /\
    0 <= u_raw_pkt_cnt r < 2 ^ 32 /\
    length (u_data r) = 4096%nat /\
    Forall (fun w => 0 <= w < 2 ^ 16) (u_data r).
Proof.
  intros Hlen. pose proof pkt_size_ge_16 as H16. unfold unpack_from.
  destruct (Nat.ltb_spec (length buf) pkt_size) as [Hlt|_]; [lia|].
  eexists. split; [reflexivity|]. cbn [u_hdr u_pkt_cnt_sec u_sec_cnt u_raw_pkt_cnt u_data].
  split; [rewrite length_firstn; lia|].
  split; [apply (be_uint_firstn_range 2)|].
  split; [apply (be_uint_firstn_range 2)|].
  split; [apply (be_uint_firstn_range 4)|].
  split; [apply be16s_length | apply be16s_range].
Qed.

Lemma nth_Forall {A} (P : A -> Prop) (l : list A) (d : A) (n : nat) :
  Forall P l -> P d -> P (nth n l d).
Proof.
  intros Hl Hd. destruct (Nat.lt_ge_cases n (length l)) as [H|H].
  - rewrite Forall_forall in Hl. apply Hl, nth_In, H.
  - rewrite nth_overflow by exact H. exact Hd.
Qed.

Lemma spec_slice_Forall (P : Z -> Prop) (data : list Z) (lo c : nat) :
  Forall P data -> P 0 -> Forall P (spec_slice data lo c).
Proof.
  intros Hd H0. unfold spec_slice, spec_D. apply Forall_map, Forall_forall.
  intros r _. apply nth_Forall; assumption.
Qed.

Lemma scale_4096_range (a : list Z) :
  Forall (fun w => 0 <= w < 2 ^ 16) a ->
  Forall (fun q => 0 <= q /\ q < 16)%Q (scale_4096 a).
Proof.
  intros Ha. unfold scale_4096. apply Forall_map. eapply Forall_impl; [|exact Ha].
  intros w Hw. cbv beta in Hw. unfold Qle, Qlt, Qdiv, Qmult, Qinv. cbn. lia.
Qed.

Lemma packet_decodes (buf : list Byte.byte) :
  (pkt_size <= length buf)%nat ->
  exists r d, unpack_from buf = Some r /\ unscramble (u_data r) = Some d.
Proof.
  intros Hlen. destruct (unpack_from_fields buf Hlen) as (r & Hr & _ & _ & _ & _ & Hd & _).
  exists r, (spec_decode (u_data r)). split; [exact Hr|]. apply unscramble_eq_spec, Hd.
Qed.

(* ------------------------------------------------------------------ *)
(** ** Progress of the unpacker worker *)

Lemma fill_progress (b c : nat) (e : Epoch) (input : list (Q * list Byte.byte)) :
  Forall (fun p => (pkt_size <= length (snd p))%nat) input ->
  ((c <= length input)%nat -> exists e', fill b c e input = Emit e' (skipn c input)) /\
  ((length input < c)%nat -> fill b c e input = Blocked).
Proof.
  revert e input; induction c as [|c IH]; intros e input Hin.
  - split; [intros _; exists e; reflexivity | intros H; lia].
  - destruct input as [|[t buf] input].
    + split; [cbn; lia | reflexivity].
    + inversion Hin as [|? ? Hbuf Hrest]; subst. cbn [snd] in Hbuf.
      destruct (packet_decodes buf Hbuf) as (r & d & Hr & Hd).
      cbn [fill]. rewrite Hr, Hd. cbn [length skipn].
      destruct (IH (add_packet (if Nat.eqb (S c) b then set_time t e else e) r d) input Hrest)
        as (H1 & H2).
      split; intros H; [apply H1 | apply H2]; lia.
Qed.

Lemma Forall_skipn_of {A} (P : A -> Prop) (n : nat) (l : list A) :
  Forall P l -> Forall P (skipn n l).
Proof.
  intros H. rewrite <- (firstn_skipn n l) in H. apply Forall_app in H. apply H.
Qed.

(* ------------------------------------------------------------------ *)
(** ** Lemmas on the wiring of the workers *)

Section WiringLemmas.
Local Open Scope nat_scope.

Lemma succ_div_or (na c : nat) :
  0 < na -> S c mod na = 0 \/ S c / na = c / na.
Proof.
  intros Hna. pose proof (Nat.div_mod_eq c na) as Hc.
  pose proof (Nat.mod_upper_bound c na ltac:(lia)) as Hr.
  destruct (Nat.eq_dec (S (c mod na)) na) as [E|E].
  - left. symmetry. apply (Nat.mod_unique (S c) na (S (c / na)) 0); lia.
  - right. symmetry. apply (Nat.div_unique (S c) na (c / na) (S (c mod na))); lia.
Qed.

Lemma wire_go_spec (na count fuel : nat) (agg : option nat) :
  0 < na -> (count mod na = 0 \/ agg = Some (count / na)) ->
  wire_go na count fuel agg =
  Some (map (fun i => (i, i / na)) (seq count fuel),
        map (fun i => i / na) (filter (fun i => Nat.eqb (i mod na) 0) (seq count fuel))).
Proof.
  intros Hna. revert count agg; induction fuel as [|fuel IH]; intros count agg Hpre;
    [reflexivity|].
  assert (Hnext : S count mod na = 0 \/ Some (count / na) = Some (S count / na)).
  { destruct (succ_div_or na count Hna) as [E|E]; [left; exact E | right; rewrite E; reflexivity]. }
  cbn [wire_go seq map filter]. destruct (Nat.eqb_spec (count mod na) 0) as [E|E].
  - rewrite (IH (S count) (Some (count / na)) Hnext). reflexivity.
  - destruct Hpre as [H|H]; [contradiction|]. rewrite H.
    rewrite (IH (S count) (Some (count / na)) Hnext). reflexivity.
Qed.

Lemma multiple_div_inj (na x y : nat) :
  0 < na -> x mod na = 0 -> y mod na = 0 -> x / na = y / na -> x = y.
Proof.
  intros Hna Hx Hy Hxy. rewrite (Nat.div_mod_eq x na), (Nat.div_mod_eq y na), Hx, Hy, Hxy.
  reflexivity.
Qed.

Lemma mod_div_mul (x na m : nat) :
  0 < na -> 0 < m -> x mod (na * m) / na = (x / na) mod m.
Proof.
  intros Hna Hm.
  pose proof (Nat.div_mod_eq x na) as H1. pose proof (Nat.mod_upper_bound x na ltac:(lia)).
  pose proof (Nat.div_mod_eq (x / na) m) as H2. pose proof (Nat.mod_upper_bound (x / na) m ltac:(lia)).
  set (q1 := x / na) in *. set (r1 := x mod na) in *.
  set (q2 := q1 / m) in *. set (r2 := q1 mod m) in *.
  assert (Hx : x mod (na * m) = na * r2 + r1).
  { symmetry. apply (Nat.mod_unique x (na * m) q2); [nia|]. rewrite H1, H2. ring. }
  rewrite Hx. symmetry. apply (Nat.div_unique (na * r2 + r1) na r2 r1); lia.
Qed.
End WiringLemmas.

(* ------------------------------------------------------------------ *)
(** ** Lemmas on the monitor file paths and the HDF5 files *)

Lemma paths_same_code (obs : Z -> list Byte.byte) (suf sI sQ pI pQ : list Byte.byte) :
  firstn 3 sI = firstn 3 sQ ->
  monfile_paths obs suf sI sQ = Some (pI, pQ) -> pI = pQ.
Proof.
  intros H3 Hp. unfold monfile_paths in Hp.
  assert (E1 : firstn 1 sI = firstn 1 sQ).
  { replace (firstn 1 sI) with (firstn 1 (firstn 3 sI)) by (rewrite firstn_firstn; reflexivity).
    replace (firstn 1 sQ) with (firstn 1 (firstn 3 sQ)) by (rewrite firstn_firstn; reflexivity).
    rewrite H3. reflexivity. }
  assert (E2 : firstn 2 (skipn 1 sI) = firstn 2 (skipn 1 sQ)).
  { replace (firstn 2 (skipn 1 sI)) with (skipn 1 (firstn 3 sI))
      by (rewrite skipn_firstn_comm; reflexivity).
    replace (firstn 2 (skipn 1 sQ)) with (skipn 1 (firstn 3 sQ))
      by (rewrite skipn_firstn_comm; reflexivity).
    rewrite H3. reflexivity. }
  rewrite E1, E2 in Hp.
  destruct (py_int (firstn 2 (skipn 1 sQ))); [|discriminate].
  injection Hp as <- <-. reflexivity.
Qed.

Lemma bytes_eqb_spec (x y : list Byte.byte) : bytes_eqb x y = true <-> x = y.
Proof.
  revert y; induction x as [|a x IH]; intros [|b y]; cbn; split; intros H;
    try discriminate; try reflexivity.
  - apply andb_true_iff in H as (H1 & H2). apply Byte.byte_dec_bl in H1.
    apply IH in H2. subst. reflexivity.
  - injection H as -> ->. apply andb_true_iff. split; [apply Byte.byte_dec_lb; reflexivity|].
    apply IH. reflexivity.
Qed.

Lemma bytes_eqb_neq (x y : list Byte.byte) : x <> y -> bytes_eqb x y = false.
Proof.
  intros H. destruct (bytes_eqb x y) eqn:E; [|reflexivity]. apply bytes_eqb_spec in E.
  contradiction.
Qed.

(** The four datasets [open_monitor_files] creates in a file. *)
Definition mon_datasets : list DsName := [DsKurtosis; DsPower; DsPktCnt; DsTime].

Lemma open_channel_fresh (path : list Byte.byte) (st : H5Store) :
  st path = [] ->
  exists st', open_channel path st = Some st' /\
    forall p, st' p = if bytes_eqb p path then mon_datasets else st p.
Proof.
  intros H. unfold open_channel, create_dataset. rewrite H.
  assert (Hr : bytes_eqb path path = true) by (apply bytes_eqb_spec; reflexivity).
  repeat (first [rewrite Hr | rewrite H | progress cbn [existsb ds_eqb orb bind_opt]]).
  eexists. split; [reflexivity|]. intros p.
  cbv beta. destruct (bytes_eqb p path) eqn:E; [|reflexivity].
  apply bytes_eqb_spec in E. subst p. rewrite H. reflexivity.
Qed.

Lemma open_channel_used (path : list Byte.byte) (st : H5Store) :
  In DsTime (st path) -> open_channel path st = None.
Proof.
  intros H. unfold open_channel, create_dataset.
  destruct (existsb (ds_eqb DsTime) (st path)) eqn:E; [reflexivity|].
  exfalso. assert (Hf : existsb (ds_eqb DsTime) (st path) = true)
    by (apply existsb_exists; exists DsTime; split; [exact H | reflexivity]).
  congruence.
Qed.

Lemma open_monitor_files_same (path : list Byte.byte) (st : H5Store) :
  st path = [] -> open_monitor_files path path st = None.
Proof.
  intros H. destruct (open_channel_fresh path st H) as (st' & Hs & Hp).
  unfold open_monitor_files. rewrite Hs. cbn [bind_opt]. apply open_channel_used.
  rewrite Hp. assert (Hr : bytes_eqb path path = true) by (apply bytes_eqb_spec; reflexivity).
  rewrite Hr. cbn. tauto.
Qed.

(* ------------------------------------------------------------------ *)
(** ** Further lemmas on the shutdown and the stop test *)

Lemma seq_blocks_abort (bs : list (list Ev * option Exn)) (actss : list (list Act))
      (p : list Ev * option Exn) (rest : list (list Ev * option Exn)) (x : Exn) :
  Forall2 good_block bs actss -> snd p = Some x ->
  snd (seq_blocks (bs ++ p :: rest)) = Some x /\
  attempts (fst (seq_blocks (bs ++ p :: rest))) = concat actss ++ attempts (fst p).
Proof.
  intros Hbs Hp. induction Hbs as [|[evs r] acts bs actss (Hr & Ha & _) _ IH].
  - destruct p as [evs r]. cbn in Hp. subst r. cbn. split; reflexivity.
  - cbn in Hr; subst r. cbn [app seq_blocks].
    destruct (seq_blocks (bs ++ p :: rest)) as [evs' r'] eqn:E.
    cbn [fst snd] in *. destruct IH as (IH1 & IH2). split; [exact IH1|].
    rewrite attempts_app, IH2, Ha. cbn [concat]. apply app_assoc.
Qed.

Lemma concat_singletons {A B} (g : A -> B) (l : list A) :
  concat (map (fun i => [g i]) l) = map g l.
Proof. induction l as [|a l IH]; cbn; [|rewrite IH]; reflexivity. Qed.


Lemma wire_fed_created (na N u : nat) :
  (0 < na)%nat -> (u < N)%nat ->
  In (u / na)%nat
     (map (fun i => (i / na)%nat) (filter (fun i => Nat.eqb (i mod na) 0) (seq 0 N))).
Proof.
  intros Hna Hu. apply in_map_iff. exists (u / na * na)%nat. split.
  - apply Nat.div_mul. lia.
  - apply filter_In. split.
    + apply in_seq. pose proof (Nat.Div0.mul_div_le u na). lia.
    + apply Nat.eqb_eq, Nat.Div0.mod_mul.
Qed.

(* ================================================================== *)
(** * Properties of the code beyond the claims *)

(** X1. A buffer of at least [pkt_size] bytes always unpacks and decodes:
    the header has 8 bytes, the two per-second counters lie in [0, 2^16),
    the raw packet counter in [0, 2^32), every power word in [0, 2^16) and
    every kurtosis value in [0, 16). *)
Theorem packet_fields_in_range (buf : list Byte.byte) :
  (pkt_size <= length buf)%nat ->
  exists r d, unpack_from buf = Some r /\ unscramble (u_data r) = Some d /\
    length (u_hdr r) = 8%nat /\
    0 <= u_pkt_cnt_sec r < 2 ^ 16 /\ 0 <= u_sec_cnt r < 2 ^ 16 /\
    0 <= u_raw_pkt_cnt r < 2 ^ 32 /\
    Forall (fun w => 0 <= w < 2 ^ 16) (power_I d ++ power_Q d) /\
    Forall (fun q => 0 <= q /\ q < 16)%Q (kurt_I d ++ kurt_Q d).
Proof.
  intros Hlen.
  destruct (unpack_from_fields buf Hlen) as (r & Hr & Hh & Hp & Hs & Hw & Hd & Hrange).
  assert (H0 : 0 <= 0 < 2 ^ 16) by lia.
  exists r, (spec_decode (u_data r)). split; [exact Hr|].
  split; [apply unscramble_eq_spec, Hd|].
  split; [exact Hh|]. split; [exact Hp|]. split; [exact Hs|]. split; [exact Hw|].
  unfold spec_decode; cbn [power_I power_Q kurt_I kurt_Q]. split.
  - apply Forall_app; split; apply Forall_app; split;
      apply spec_slice_Forall; first [exact Hrange | exact H0].
  - apply Forall_app; split; apply scale_4096_range; apply Forall_app; split;
      apply spec_slice_Forall; first [exact Hrange | exact H0].
Qed.

Lemma packet_fields_in_range_witness :
  (pkt_size <= length zero_packet)%nat /\
  exists r, unpack_from zero_packet = Some r.
Proof.
  assert (H : (pkt_size <= length zero_packet)%nat)
    by (unfold zero_packet; rewrite repeat_length; apply Nat.le_refl).
  split; [exact H|].
  destruct (packet_fields_in_range zero_packet H) as (r & d & Hr & _).
  exists r. exact Hr.
Defined.

(** X2. When every buffer on its input queue has at least [pkt_size] bytes
    and the batch size [b] is positive, the worker never crashes and ends
    blocked: over [fuel] rounds of its outer loop it puts
    [min fuel (n / b)] epochs on its output queue, [n] being the number of
    buffers queued; the inner loop, started at any batch boundary [m * b]
    of the queue (round [m] of the outer loop starts there), never raises;
    and when [fuel] allows a round after the last full batch, that round
    blocks in [get()] waiting for input. *)
Theorem worker_epoch_count (b fuel : nat) (input : list (Q * list Byte.byte)) :
  (0 < b)%nat ->
  Forall (fun p => (pkt_size <= length (snd p))%nat) input ->
  length (unscramble_packet b fuel input) = Nat.min fuel (length input / b) /\
  (forall m, fill b b empty_epoch (skipn (m * b) input) <> Crashed) /\
  ((length input / b < fuel)%nat ->
   fill b b empty_epoch (skipn (length input / b * b)%nat input) = Blocked).
Proof.
  intros Hb Hin. split; [|split].
  - clear -Hb Hin. revert input Hin; induction fuel as [|fuel IH]; intros input Hin;
      [reflexivity|].
    cbn [unscramble_packet].
    destruct (fill_progress b b empty_epoch input Hin) as (H1 & H2).
    destruct (Nat.le_gt_cases b (length input)) as [Hle|Hlt].
    + destruct (H1 Hle) as (e & He). rewrite He. cbn [length].
      rewrite (IH (skipn b input) (Forall_skipn_of _ b input Hin)), length_skipn.
      replace (length input) with (length input - b + 1 * b)%nat at 2 by lia.
      rewrite Nat.div_add by lia. lia.
    + rewrite (H2 Hlt). cbn [length]. rewrite Nat.div_small by exact Hlt. lia.
  - intros m.
    destruct (fill_progress b b empty_epoch (skipn (m * b) input)
                (Forall_skipn_of _ (m * b) input Hin)) as (H1 & H2).
    destruct (Nat.le_gt_cases b (length (skipn (m * b) input))) as [Hle|Hlt].
    + destruct (H1 Hle) as (e & He). rewrite He. discriminate.
    + rewrite (H2 Hlt). discriminate.
  - intros _. apply (fill_progress b b empty_epoch _ (Forall_skipn_of _ _ input Hin)).
    rewrite length_skipn.
    pose proof (Nat.div_mod (length input) b ltac:(lia)) as Hdm.
    pose proof (Nat.mod_upper_bound (length input) b ltac:(lia)) as Hmb.
    rewrite Nat.mul_comm. lia.
Qed.

Lemma worker_epoch_count_witness :
  (0 < 2)%nat /\
  Forall (fun p => (pkt_size <= length (snd p))%nat)
    [(0%Q, zero_packet); (1%Q, zero_packet); (2%Q, zero_packet)] /\
  length (unscramble_packet 2 5
    [(0%Q, zero_packet); (1%Q, zero_packet); (2%Q, zero_packet)]) = 1%nat /\
  fill 2 2 empty_epoch (skipn 2
    [(0%Q, zero_packet); (1%Q, zero_packet); (2%Q, zero_packet)]) = Blocked.
Proof.
  assert (H1 : (0 < 2)%nat) by lia.
  assert (Hz : (pkt_size <= length zero_packet)%nat)
    by (unfold zero_packet; rewrite repeat_length; apply Nat.le_refl).
  assert (H2 : Forall (fun p => (pkt_size <= length (snd p))%nat)
                 [(0%Q, zero_packet); (1%Q, zero_packet); (2%Q, zero_packet)])
    by (repeat constructor; exact Hz).
  destruct (worker_epoch_count 2 5 _ H1 H2) as (Hn & _ & Hblk).
  split; [exact H1|]. split; [exact H2|]. split; [exact Hn|].
  exact (Hblk ltac:(cbn; lia)).
Defined.

(** X4. With [na > 0] aggregators per group, [_create_workers_and_queues]
    for [nw] unpackers succeeds: unpacker [u] puts on the queue of
    aggregator [u / na]; aggregators are created once each, at the
    unpackers [u] with [u mod na = 0]; every aggregator an unpacker feeds
    was created, and every created aggregator is fed by some unpacker. *)
Theorem create_workers_wiring (nw na : nat) :
  (0 < na)%nat ->
  exists us ags, create_workers nw na = Some (us, ags) /\
    us = map (fun u => (u, u / na)%nat) (seq 0 nw) /\
    ags = map (fun u => (u / na)%nat) (filter (fun u => Nat.eqb (u mod na) 0) (seq 0 nw)) /\
    NoDup ags /\
    (forall u a, In (u, a) us -> In a ags) /\
    (forall a, In a ags -> exists u, In (u, a) us).
Proof.
  intros Hna. unfold create_workers.
  destruct (Nat.eqb_spec na 0) as [E|_]; [lia|].
  rewrite (wire_go_spec na 0 nw None Hna (or_introl (Nat.Div0.mod_0_l na))).
  eexists _, _. split; [reflexivity|]. split; [reflexivity|]. split; [reflexivity|].
  split; [|split].
  - apply NoDup_map_NoDup_ForallPairs; [|apply NoDup_filter, seq_NoDup].
    intros x y Hx Hy Hxy. apply filter_In in Hx as (_ & Hx), Hy as (_ & Hy).
    apply Nat.eqb_eq in Hx, Hy. apply (multiple_div_inj na); assumption.
  - intros u a Hin. apply in_map_iff in Hin as (u' & Heq & Hu). injection Heq as <- <-.
    apply in_seq in Hu. apply wire_fed_created; lia.
  - intros a Hin. apply in_map_iff in Hin as (u & <- & Hu). apply filter_In in Hu as (Hu & _).
    exists u. apply in_map_iff. exists u. split; [reflexivity | exact Hu].
Qed.

Lemma create_workers_wiring_witness :
  (0 < num_aggregators)%nat /\
  exists us, create_workers num_workers num_aggregators = Some (us, [0; 1; 2; 3]%nat).
Proof.
  assert (H : (0 < num_aggregators)%nat) by (unfold num_aggregators; lia).
  split; [exact H|].
  destruct (create_workers_wiring num_workers num_aggregators H)
    as (us & ags & Hc & _ & Hags & _).
  exists us. rewrite Hc, Hags. reflexivity.
Defined.

(** X5. With a positive batch size [b], [na > 0] unpackers per aggregator
    and [N = na * m] unpackers ([m > 0]), datagram [i] goes to unpacker
    [(i / b) mod N], which feeds aggregator [(i / (b * na)) mod m], an
    aggregator that exists: the aggregators take [b * na] consecutive
    datagrams each, in cyclic order (20000 each, over 4 aggregators, with
    the program's constants). *)
Theorem datagram_aggregator (b N na m : nat) (ds : list (list Byte.byte)) (i : nat)
        (d : list Byte.byte) :
  (0 < b)%nat -> (0 < na)%nat -> (0 < m)%nat -> N = (na * m)%nat ->
  nth_error ds i = Some d ->
  exists us ags, create_workers N na = Some (us, ags) /\
    nth_error (get_packet b N ds) i = Some (((i / b) mod N)%nat, recvfrom d) /\
    In (((i / b) mod N)%nat, ((i / (b * na)) mod m)%nat) us /\
    In ((i / (b * na)) mod m)%nat ags.
Proof.
  intros Hb Hna Hm HN Hi.
  assert (HN0 : (0 < N)%nat) by (subst N; lia).
  assert (Hw : ((i / b) mod N / na = (i / (b * na)) mod m)%nat).
  { subst N. rewrite mod_div_mul by assumption. rewrite Nat.Div0.div_div. reflexivity. }
  assert (Hu : ((i / b) mod N < N)%nat) by (apply Nat.mod_upper_bound; lia).
  unfold create_workers. destruct (Nat.eqb_spec na 0) as [E|_]; [lia|].
  rewrite (wire_go_spec na 0 N None Hna (or_introl (Nat.Div0.mod_0_l na))).
  eexists _, _. split; [reflexivity|]. split; [|split].
  - rewrite (get_packet_unfold b N Hb HN0).
    rewrite (reader_go_nth b N Hb HN0 ds 0 i d Hi). reflexivity.
  - apply in_map_iff. exists ((i / b) mod N)%nat. rewrite Hw. split; [reflexivity|].
    apply in_seq. lia.
  - rewrite <- Hw. apply wire_fed_created; assumption.
Qed.

Lemma datagram_aggregator_witness :
  (0 < max_count)%nat /\ (0 < num_aggregators)%nat /\ (0 < 4)%nat /\
  num_workers = (num_aggregators * 4)%nat /\
  nth_error [[Byte.x01]] 0 = Some [Byte.x01] /\
  exists us ags, create_workers num_workers num_aggregators = Some (us, ags) /\
    In 0%nat ags.
Proof.
  assert (H1 : (0 < max_count)%nat) by (unfold max_count; lia).
  assert (H2 : (0 < num_aggregators)%nat) by (unfold num_aggregators; lia).
  assert (H3 : (0 < 4)%nat) by lia.
  assert (H4 : num_workers = (num_aggregators * 4)%nat) by reflexivity.
  assert (H5 : nth_error [[Byte.x01]] 0 = Some [Byte.x01]) by reflexivity.
  do 5 (split; [assumption|]).
  destruct (datagram_aggregator max_count num_workers num_aggregators 4 [[Byte.x01]] 0
              [Byte.x01] H1 H2 H3 H4 H5) as (us & ags & Hc & _ & _ & Hin).
  exists us, ags. split; [exact Hc|]. rewrite Nat.Div0.div_0_l in Hin. exact Hin.
Defined.

(** X6. The I and Q monitor file paths built in [__init__] depend on the
    signal codes' band character and station number only: when the two
    codes agree on their first three characters, both channels get the same
    path, and [open_monitor_files] on files that hold no datasets yet then
    raises (the second [create_dataset('time')] finds the name taken). With
    equal station numbers and different band characters the paths differ. *)
Theorem monitor_paths_collide (obs : Z -> list Byte.byte) (suf sI sQ pI pQ : list Byte.byte)
        (st : H5Store) :
  monfile_paths obs suf sI sQ = Some (pI, pQ) ->
  (firstn 3 sI = firstn 3 sQ -> pI = pQ /\ (st pI = [] -> open_monitor_files pI pQ st = None)) /\
  (py_int (firstn 2 (skipn 1 sI)) = py_int (firstn 2 (skipn 1 sQ)) ->
   firstn 1 sI <> firstn 1 sQ -> pI <> pQ).
Proof.
  intros Hp. split.
  - intros H3. pose proof (paths_same_code obs suf sI sQ pI pQ H3 Hp) as <-.
    split; [reflexivity|]. apply open_monitor_files_same.
  - intros Hd Hb Heq. unfold monfile_paths in Hp. rewrite <- Hd in Hp.
    destruct (py_int (firstn 2 (skipn 1 sI))); [|discriminate].
    injection Hp as <- <-. apply app_inv_head in Heq.
    change (mon_prefix ++ firstn 1 sI ++ suf = mon_prefix ++ firstn 1 sQ ++ suf) in Heq.
    apply app_inv_head, app_inv_tail in Heq. apply Hb. exact Heq.
Qed.

Lemma monitor_paths_collide_witness :
  monfile_paths (fun _ => [Byte.x2f]) []
    [Byte.x58; Byte.x31; Byte.x34; Byte.x49] [Byte.x58; Byte.x31; Byte.x34; Byte.x51] =
    Some ([Byte.x2f; Byte.x6d; Byte.x6f; Byte.x6e; Byte.x2d; Byte.x58],
          [Byte.x2f; Byte.x6d; Byte.x6f; Byte.x6e; Byte.x2d; Byte.x58]) /\
  open_monitor_files [Byte.x2f; Byte.x6d; Byte.x6f; Byte.x6e; Byte.x2d; Byte.x58]
    [Byte.x2f; Byte.x6d; Byte.x6f; Byte.x6e; Byte.x2d; Byte.x58] (fun _ => []) = None.
Proof.
  assert (H : monfile_paths (fun _ => [Byte.x2f]) []
    [Byte.x58; Byte.x31; Byte.x34; Byte.x49] [Byte.x58; Byte.x31; Byte.x34; Byte.x51] =
    Some ([Byte.x2f; Byte.x6d; Byte.x6f; Byte.x6e; Byte.x2d; Byte.x58],
          [Byte.x2f; Byte.x6d; Byte.x6f; Byte.x6e; Byte.x2d; Byte.x58]))
    by (vm_compute; reflexivity).
  split; [exact H|].
  exact (proj2 (proj1 (monitor_paths_collide _ _ _ _ _ _ (fun _ => []) H) eq_refl) eq_refl).
Defined.

(** X7. On files that hold no datasets, [open_monitor_files] succeeds
    exactly when the I and Q paths differ; it then leaves each of the two
    files holding the four datasets [time], [pkt cnt], [power] and
    [kurtosis] and every other file as it was. With equal paths it raises. *)
Theorem open_monitor_files_fresh (pI pQ : list Byte.byte) (st : H5Store) :
  st pI = [] -> st pQ = [] ->
  (pI = pQ -> open_monitor_files pI pQ st = None) /\
  (pI <> pQ -> exists st', open_monitor_files pI pQ st = Some st' /\
     st' pI = mon_datasets /\ st' pQ = mon_datasets /\
     forall p, p <> pI -> p <> pQ -> st' p = st p).
Proof.
  intros HI HQ. split.
  - intros <-. apply open_monitor_files_same. exact HI.
  - intros Hne. destruct (open_channel_fresh pI st HI) as (s1 & H1 & E1).
    assert (HQ1 : s1 pQ = []).
    { rewrite E1, bytes_eqb_neq by (intros E; apply Hne; symmetry; exact E). exact HQ. }
    destruct (open_channel_fresh pQ s1 HQ1) as (s2 & H2 & E2).
    exists s2. unfold open_monitor_files. rewrite H1. cbn [bind_opt]. rewrite H2.
    split; [reflexivity|].
    assert (Hr : forall p, bytes_eqb p p = true) by (intros p; apply bytes_eqb_spec; reflexivity).
    split; [|split].
    + rewrite E2, bytes_eqb_neq by exact Hne. rewrite E1, Hr. reflexivity.
    + rewrite E2, Hr. reflexivity.
    + intros p Hp1 Hp2. rewrite E2, bytes_eqb_neq by exact Hp2.
      rewrite E1, bytes_eqb_neq by exact Hp1. reflexivity.
Qed.

Lemma open_monitor_files_fresh_witness :
  (fun _ : list Byte.byte => @nil DsName) [Byte.x61] = [] /\
  (fun _ : list Byte.byte => @nil DsName) [Byte.x62] = [] /\
  exists st', open_monitor_files [Byte.x61] [Byte.x62] (fun _ => []) = Some st'.
Proof.
  assert (HI : (fun _ : list Byte.byte => @nil DsName) [Byte.x61] = []) by reflexivity.
  assert (HQ : (fun _ : list Byte.byte => @nil DsName) [Byte.x62] = []) by reflexivity.
  split; [exact HI|]. split; [exact HQ|].
  destruct (proj2 (open_monitor_files_fresh [Byte.x61] [Byte.x62] (fun _ => []) HI HQ)
              ltac:(discriminate)) as (st' & Hs & _).
  exists st'. exact Hs.
Defined.

(** X8. With an explicit end time [(hr, mn)] (0 <= hr < 24, 0 <= mn < 60),
    the stop test of [run] holds for an epoch exactly when the whole
    seconds of its timestamp are [hr:mn:00] UTC on some day: the date
    plays no part, and the fraction of a second is dropped. *)
Theorem end_test_explicit (t now : Q) (hr mn : Z) :
  0 <= hr < 24 -> 0 <= mn < 60 ->
  hms_eqb (gmtime_hms t) (end_target (Some (hr, mn)) now) = true <->
  exists k, time_t_of t = 86400 * k + 3600 * hr + 60 * mn.
Proof.
  intros Hh Hm. rewrite hms_eqb_spec. unfold end_target, gmtime_hms.
  set (T := time_t_of t). split.
  - intros H. injection H as H1 H2 H3. exists (T / 86400).
    revert H1 H2 H3. Z.div_mod_to_equations. lia.
  - intros (k & Hk).
    assert (Hd : T mod 86400 = 3600 * hr + 60 * mn).
    { symmetry. apply (Z.mod_unique T 86400 k); lia. }
    rewrite Hd. f_equal; [f_equal|]; Z.div_mod_to_equations; lia.
Qed.

Lemma end_test_explicit_witness :
  (0 <= 1 < 24 /\ 0 <= 30 < 60) /\
  hms_eqb (gmtime_hms (183601 # 2)) (end_target (Some (1, 30)) 0) = true.
Proof.
  assert (Hh : 0 <= 1 < 24) by lia. assert (Hm : 0 <= 30 < 60) by lia.
  split; [split; assumption|].
  apply (end_test_explicit (183601 # 2) 0 1 30 Hh Hm).
  exists 1. reflexivity.
Defined.

(** X9. When terminating unpacker [j] raises an exception other than
    [AttributeError] (after the flag was cleared and the earlier steps
    either succeeded or raised [AttributeError]), the exception escapes the
    shutdown: the steps attempted are exactly clearing the flag, the reader
    and unpackers [0 .. j]; the later unpackers, the aggregators and the
    averager are never terminated and the socket is never closed. *)
Theorem shutdown_aborts_at_unpacker (fails : Act -> option Exn) (j : nat) (x : Exn) :
  (j < num_workers)%nat ->
  fails ClearFlag = None ->
  (fails TermReader = None \/ fails TermReader = Some AttributeError) ->
  (forall i, (i < j)%nat ->
     fails (TermUnpacker i) = None \/ fails (TermUnpacker i) = Some AttributeError) ->
  fails (TermUnpacker j) = Some x -> x <> AttributeError ->
  snd (shutdown fails) = Some x /\
  attempts (fst (shutdown fails)) = [ClearFlag; TermReader] ++ map TermUnpacker (seq 0 (S j)).
Proof.
  intros Hj Hc Hr Hi Hx Hne.
  assert (Hgood : forall a, fails a = None \/ fails a = Some AttributeError ->
                    good_block (try_block fails [a] catch_attr) [a]).
  { intros a [E|E]; apply try_block_single_good; [left; exact E|].
    right. exists AttributeError. split; [exact E | reflexivity]. }
  assert (Hp : try_block fails [TermUnpacker j] catch_attr =
               ([Failed (TermUnpacker j) x], Some x)).
  { cbn [try_block]. rewrite Hx. destruct x; [contradiction | reflexivity | reflexivity]. }
  assert (Ht : snd (terminate fails) = Some x /\
               attempts (fst (terminate fails)) =
               [TermReader] ++ map TermUnpacker (seq 0 j) ++ [TermUnpacker j]).
  { unfold terminate.
    replace num_workers with (j + S (num_workers - S j))%nat by lia.
    rewrite seq_app, map_app. cbn [seq map]. rewrite Nat.add_0_l.
    rewrite <- !app_assoc. cbn [app]. rewrite Hp.
    match goal with
    | |- context [seq_blocks (?a :: ?l ++ ?p :: ?r)] =>
        change (a :: l ++ p :: r) with (([a] ++ l) ++ p :: r);
        destruct (seq_blocks_abort ([a] ++ l)
                    ([[TermReader]] ++ map (fun i => [TermUnpacker i]) (seq 0 j)) p r x)
          as (A & B)
    end.
    - apply Forall2_app; [constructor; [apply Hgood, Hr | constructor]|].
      apply Forall2_map_seq. intros i Hin. apply in_seq in Hin. apply Hgood, Hi. lia.
    - reflexivity.
    - split; [exact A|]. rewrite B. cbn [concat app attempts].
      rewrite concat_singletons. reflexivity. }
  unfold shutdown.
  change [try_block fails [ClearFlag] catch_none; terminate fails]
    with ([try_block fails [ClearFlag] catch_none] ++ [terminate fails]).
  destruct (terminate fails) as [evs r] eqn:E. cbn [fst snd] in Ht. destruct Ht as (A & B).
  destruct (seq_blocks_abort [try_block fails [ClearFlag] catch_none] [[ClearFlag]]
              (evs, r) [] x) as (C & D).
  - constructor; [|constructor]. apply try_block_single_good. left. exact Hc.
  - exact A.
  - split; [exact C|]. rewrite D. cbn [fst]. rewrite B. rewrite seq_S, map_app.
    reflexivity.
Qed.

Lemma shutdown_aborts_at_unpacker_witness :
  (2 < num_workers)%nat /\
  attempts (fst (shutdown (fun a => match a with
                                    | TermUnpacker 2 => Some OtherError
                                    | _ => None end))) =
  [ClearFlag; TermReader; TermUnpacker 0; TermUnpacker 1; TermUnpacker 2].
Proof.
  pose (F := fun a => match a with TermUnpacker 2 => Some OtherError | _ => None end).
  assert (Hj : (2 < num_workers)%nat) by (unfold num_workers; lia).
  assert (Hi : forall i, (i < 2)%nat ->
                 F (TermUnpacker i) = None \/ F (TermUnpacker i) = Some AttributeError)
    by (intros i Hi; destruct i as [|[|i]]; [left; reflexivity | left; reflexivity | lia]).
  split; [exact Hj|].
  exact (proj2 (shutdown_aborts_at_unpacker F 2 OtherError Hj eq_refl (or_introl eq_refl)
                  Hi eq_refl ltac:(discriminate))).
Defined.

Lemma Forall2_nth_error_l {A B} (R : A -> B -> Prop) (l1 : list A) (l2 : list B)
      (i : nat) (a : A) :
  Forall2 R l1 l2 -> nth_error l1 i = Some a -> exists b, R a b.
Proof.
  intros H. revert i. induction H as [|x y l1 l2 Hxy _ IH]; intros i Hi.
  - destruct i; discriminate.
  - destruct i as [|i]; cbn in Hi; [injection Hi as <-; exists y; exact Hxy | exact (IH i Hi)].
Qed.

Lemma unpack_from_length (buf : list Byte.byte) (r : Unpacked) :
  unpack_from buf = Some r -> (pkt_size <= length buf)%nat.
Proof.
  unfold unpack_from. destruct (Nat.ltb_spec (length buf) pkt_size); [discriminate|].
  intros _. assumption.
Qed.

(** X10. A buffer shorter than [pkt_size] at position [n] of a worker's
    input kills the worker when it reaches it ([unpack_from] raises): with
    a positive batch size [b] it puts at most [n / b] epochs on its output
    queue, the ones whose batches lie wholly before that buffer. *)
Theorem short_buffer_stops_worker (b fuel : nat) (input : list (Q * list Byte.byte))
        (n : nat) (t : Q) (buf : list Byte.byte) :
  (0 < b)%nat -> nth_error input n = Some (t, buf) -> (length buf < pkt_size)%nat ->
  (length (unscramble_packet b fuel input) <= n / b)%nat.
Proof.
  intros Hb Hn Hs. destruct (Nat.le_gt_cases (length (unscramble_packet b fuel input)) (n / b))
    as [Hle|Hgt]; [exact Hle|exfalso].
  set (k := (n / b)%nat) in *.
  destruct (nth_error (unscramble_packet b fuel input) k) as [e|] eqn:Hk;
    [|apply nth_error_None in Hk; lia].
  destruct (unscramble_packet_nth b fuel input k e Hk) as (_ & ps & _ & Hdec & _).
  pose proof (Nat.div_mod_eq n b) as Hdm. pose proof (Nat.mod_upper_bound n b ltac:(lia)).
  assert (Hnth : nth_error (firstn b (skipn (k * b) (map snd input))) (n - k * b) = Some buf).
  { rewrite nth_error_firstn. destruct (Nat.ltb_spec (n - k * b) b) as [_|]; [|unfold k in *; nia].
    rewrite nth_error_skipn, nth_error_map.
    replace (k * b + (n - k * b))%nat with n by (unfold k in *; nia). rewrite Hn. reflexivity. }
  destruct (Forall2_nth_error_l _ _ _ _ _ Hdec Hnth) as (p & Hu & _).
  apply unpack_from_length in Hu. lia.
Qed.

Lemma short_buffer_stops_worker_witness :
  (0 < 1)%nat /\
  nth_error [(0%Q, zero_packet); (1%Q, [Byte.x00])] 1 = Some (1%Q, [Byte.x00]) /\
  (length [Byte.x00] < pkt_size)%nat /\
  (length (unscramble_packet 1 3 [(0%Q, zero_packet); (1%Q, [Byte.x00])]) <= 1)%nat.
Proof.
  assert (H1 : (0 < 1)%nat) by lia.
  assert (H2 : nth_error [(0%Q, zero_packet); (1%Q, [Byte.x00])] 1 = Some (1%Q, [Byte.x00]))
    by reflexivity.
  assert (H3 : (length [Byte.x00] < pkt_size)%nat) by (apply Nat.ltb_lt; reflexivity).
  split; [exact H1|]. split; [exact H2|]. split; [exact H3|].
  exact (short_buffer_stops_worker 1 3 _ 1 1%Q [Byte.x00] H1 H2 H3).
Defined.
